(** * Verification of the dialect layer of phsmit/core (dialect.go)

    The development embeds [Base], its DDL synthesis methods and the
    process-wide dialect registry as Rocq functions, and proves the layout
    of the generated statements.

    Go strings are immutable byte sequences: they are modelled as
    [list ascii].  A call that can hit a nil pointer, a nil interface or an
    out-of-range slice lives in the [result] monad, whose [Panic] outcome
    records the kind of run-time failure. *)

From Stdlib Require Import ZArith NArith Ascii String List Lia Bool.
From stdpp Require Import base list strings gmap.

Local Open Scope Z_scope.

(* ===================================================================== *)
(** ** Go strings *)
(* ===================================================================== *)

Abbreviation gostring := (list ascii).

(** A string literal of the source. *)
Definition str (s : string) : gostring := list_ascii_of_string s.
Arguments str : simpl never.

(** [len(s)]: the number of bytes, a Go [int]. *)
Definition len (s : gostring) : Z := Z.of_nat (length s).

(** [strings.Join(elems, sep)]. *)
Fixpoint Join (elems : list gostring) (sep : gostring) : gostring :=
  match elems with
  | [] => []
  | [x] => x
  | x :: rest => x ++ sep ++ Join rest sep
  end.

(** *** [strings.TrimSpace]

    The Go standard library removes, on both sides, every code point that
    [unicode.IsSpace] accepts.  The string is decoded as UTF-8; a byte
    sequence that is not a valid encoding decodes to [RuneError], which is
    not a space, so trimming stops there.  All white-space code points lie
    below U+10000, hence encodings of one, two and three bytes are the only
    ones that can be trimmed. *)

Definition byte (a : ascii) : N := N_of_ascii a.

(** [unicode.IsSpace]: the Latin-1 spaces and the [White_Space] property. *)
Definition IsSpace (r : N) : bool :=
  (((0x09 <=? r) && (r <=? 0x0D)) || (r =? 0x20) || (r =? 0x85) || (r =? 0xA0)
   || (r =? 0x1680) || ((0x2000 <=? r) && (r <=? 0x200A))
   || (r =? 0x2028) || (r =? 0x2029) || (r =? 0x202F) || (r =? 0x205F)
   || (r =? 0x3000))%N.

Definition isCont (b : N) : bool := ((0x80 <=? b) && (b <=? 0xBF))%N.

(** One-byte encoding: an ASCII byte is its own code point. *)
Definition decode1 (a : ascii) : option N :=
  if (byte a <? 0x80)%N then Some (byte a) else None.

(** Two-byte encoding [110xxxxx 10xxxxxx]; the leading bytes C0 and C1 would
    be over-long and are invalid. *)
Definition decode2 (a b : ascii) : option N :=
  if ((0xC2 <=? byte a) && (byte a <=? 0xDF) && isCont (byte b))%N
  then Some ((byte a - 0xC0) * 64 + (byte b - 0x80))%N
  else None.

(** Three-byte encoding [1110xxxx 10xxxxxx 10xxxxxx], without the over-long
    forms (E0 followed by a byte below A0) and the surrogates (ED followed by
    a byte above 9F). *)
Definition decode3 (a b c : ascii) : option N :=
  if ((0xE0 <=? byte a) && (byte a <=? 0xEF)
      && isCont (byte b) && isCont (byte c)
      && negb ((byte a =? 0xE0) && (byte b <? 0xA0))
      && negb ((byte a =? 0xED) && (0x9F <? byte b)))%N
  then Some ((byte a - 0xE0) * 4096 + (byte b - 0x80) * 64 + (byte c - 0x80))%N
  else None.

Definition spaceRune (o : option N) : bool :=
  match o with Some r => IsSpace r | None => false end.

Definition space1 (a : ascii) : bool := spaceRune (decode1 a).
Definition space2 (a b : ascii) : bool := spaceRune (decode2 a b).
Definition space3 (a b c : ascii) : bool := spaceRune (decode3 a b c).

(** [TrimLeftFunc(s, unicode.IsSpace)]: decode from the front and drop
    spaces until a rune that is not one. *)
Fixpoint trimLeft (s : gostring) : gostring :=
  match s with
  | [] => []
  | a :: t1 =>
      if space1 a then trimLeft t1
      else match t1 with
           | [] => s
           | b :: t2 =>
               if space2 a b then trimLeft t2
               else match t2 with
                    | [] => s
                    | c :: t3 => if space3 a b c then trimLeft t3 else s
                    end
           end
  end.

(** The same walk from the back, on the reversed string: the last rune of
    the string is a space exactly when the string ends with the encoding of
    one, which is what [DecodeLastRuneInString] finds (it steps back over
    continuation bytes to the start byte and requires the decoded rune to
    end at the end of the string). *)
Fixpoint stripRev (s : gostring) : gostring :=
  match s with
  | [] => []
  | c :: t1 =>
      if space1 c then stripRev t1
      else match t1 with
           | [] => s
           | b :: t2 =>
               if space2 b c then stripRev t2
               else match t2 with
                    | [] => s
                    | a :: t3 => if space3 a b c then stripRev t3 else s
                    end
           end
  end.

Definition trimRight (s : gostring) : gostring := rev (stripRev (rev s)).

(** [TrimSpace(s) = TrimRightFunc(TrimLeftFunc(s, IsSpace), IsSpace)]. *)
Definition TrimSpace (s : gostring) : gostring := trimRight (trimLeft s).

(* ===================================================================== *)
(** ** Run-time failures *)
(* ===================================================================== *)

Inductive panic : Type :=
  | NilDereference              (* nil pointer or nil interface used *)
  | SliceOutOfRange             (* slice bounds out of range *)
  | PanicValue (v : gostring).  (* explicit [panic(v)] *)

Inductive result (A : Type) : Type :=
  | Ok (a : A)
  | Panic (p : panic).
Arguments Ok {A} a.
Arguments Panic {A} p.

#[global] Instance result_ret : MRet result := fun A a => Ok a.
#[global] Instance result_bind : MBind result :=
  fun A B f m => match m with Ok a => f a | Panic p => Panic p end.

(** Using a pointer (or calling a method on an interface value) that may be
    nil. *)
Definition deref {A : Type} (p : option A) : result A :=
  match p with
  | Some a => Ok a
  | None => Panic NilDereference
  end.

(** [s[:hi]]: slicing panics when the bound is negative or past the end. *)
Definition sliceTo (s : gostring) (hi : Z) : result gostring :=
  if (0 <=? hi) && (hi <=? len s) then Ok (take (Z.to_nat hi) s)
  else Panic SliceOutOfRange.

(** [s == ""] *)
Definition isEmpty (s : gostring) : bool :=
  match s with [] => true | _ => false end.

(* ===================================================================== *)
(** ** Data model *)
(* ===================================================================== *)

Module Uri.
(** [type Uri struct]; [Timeout] is a [time.Duration], an [int64]. *)
Record t : Type := Build {
  DbType : gostring;
  Proto : gostring;
  Host : gostring;
  Port : gostring;
  DbName : gostring;
  User : gostring;
  Passwd : gostring;
  Charset : gostring;
  Laddr : gostring;
  Raddr : gostring;
  Timeout : Z
}.
End Uri.

Module Dialect.
(** The methods of the [Dialect] interface that [Base] calls, each given by
    the value it returns.  [URI()] returns a [*Uri], which may be nil. *)
Record t : Type := Build {
  QuoteStr : gostring;
  SupportEngine : bool;
  SupportCharset : bool;
  URI : option Uri.t
}.
End Dialect.

Module Index.
(** Modelled from the spec: the [Index] type is declared in another file of
    the package; an index has a logical name, a type that is compared with
    the constant [UniqueType], and its column names. *)
Record t : Type := Build {
  Name : gostring;
  Type_ : Z;
  Cols : list gostring
}.
End Index.

Module Table.
(** Modelled from the spec: the [Table] type is declared in another file of
    the package; a table owns an ordered sequence of column names, the
    primary-key column names and a lookup from column name to column
    metadata ([GetColumn] returns a [*Column], nil when the name does not
    resolve). *)
Record t (Column : Type) : Type := Build {
  Name : gostring;
  ColumnsSeq : list gostring;
  PrimaryKeys : list gostring;
  GetColumn : gostring -> option Column
}.
Arguments Build {Column}.
Arguments Name {Column}.
Arguments ColumnsSeq {Column}.
Arguments PrimaryKeys {Column}.
Arguments GetColumn {Column}.
End Table.

(** Modelled from the spec: the [Column] type is declared in another file of
    the package; the adapter reads its [IsPrimaryKey] flag and delegates the
    text of a column definition to its two renderers, [String] (inline
    primary-key form) and [StringNoPk], both parameterized by the dialect. *)
Class ColumnOps (Column : Type) : Type := {
  IsPrimaryKey : Column -> bool;
  Column_String : Column -> Dialect.t -> gostring;
  Column_StringNoPk : Column -> Dialect.t -> gostring
}.

(** [type Base struct]; the [*DB], the [Dialect] interface value and the
    embedded [*Uri] may each be nil. *)
Record Base (DBConn : Type) : Type := mkBase {
  db : option DBConn;
  dialect : option Dialect.t;
  driverName : gostring;
  dataSourceName : gostring;
  Uri : option Uri.t
}.
Arguments mkBase {DBConn}.
Arguments db {DBConn}.
Arguments dialect {DBConn}.
Arguments driverName {DBConn}.
Arguments dataSourceName {DBConn}.
Arguments Uri {DBConn}.

(** The Go [error] interface; [None] is the nil error. *)
Definition error : Type := gostring.

(* ===================================================================== *)
(** ** The registry: [var dialects = map[DbType]Dialect{}] *)
(* ===================================================================== *)

Definition dialects0 : gmap gostring Dialect.t := ∅.

Definition RegisterDialect (dbName : gostring) (dialect : option Dialect.t)
    (dialects : gmap gostring Dialect.t) : result (gmap gostring Dialect.t) :=
  match dialect with
  | None => Panic (PanicValue (str "core: Register dialect is nil"))
  | Some d => Ok (<[dbName := d]> dialects)
  end.

Definition QueryDialect (dbName : gostring)
    (dialects : gmap gostring Dialect.t) : option Dialect.t :=
  dialects !! dbName.

(** A start-up sequence of registrations of non-nil dialects. *)
Fixpoint registerAll (calls : list (gostring * Dialect.t))
    (dialects : gmap gostring Dialect.t) : result (gmap gostring Dialect.t) :=
  match calls with
  | [] => Ok dialects
  | (dbName, d) :: rest =>
      dialects' ← RegisterDialect dbName (Some d) dialects;
      registerAll rest dialects'
  end.

(* ===================================================================== *)
(** ** The Base adapter *)
(* ===================================================================== *)

Section BaseAdapter.

(** [DBConn] stands for the connection type [DB], which belongs to another
    file of the package, as does the constant [UniqueType]. *)
Context {DBConn Column : Type} `{ColumnOps Column}.
Variable UniqueType : Z.

Implicit Types (b : Base DBConn) (table : Table.t Column) (d : Dialect.t).

Definition DB b : option DBConn := db b.

Definition Init b (db0 : option DBConn) (dialect0 : option Dialect.t)
    (uri : option Uri.t) (drivername dataSourceName0 : gostring)
    : Base DBConn * option error :=
  let b := mkBase db0 dialect0 (driverName b) (dataSourceName b) uri in
  let b := mkBase (db b) (dialect b) drivername dataSourceName0 (Uri b) in
  (b, None).

Definition URI b : option Uri.t := Uri b.

Definition DBType b : result gostring :=
  u ← deref (Uri b); Ok (Uri.DbType u).

Definition DriverName b : gostring := driverName b.

Definition ShowCreateNull b : bool := true.

Definition DataSourceName b : gostring := dataSourceName b.

Definition Quote b (c : gostring) : result gostring :=
  d ← deref (dialect b);
  Ok (Dialect.QuoteStr d ++ c ++ Dialect.QuoteStr d).

Definition AndStr b : gostring := str "AND".

Definition OrStr b : gostring := str "OR".

Definition EqStr b : gostring := str "=".

Definition RollBackStr b : gostring := str "ROLL BACK".

Definition DropTableSql b (tableName : gostring) : gostring :=
  str "DROP TABLE IF EXISTS `" ++ tableName ++ str "`".

Definition CreateIndexSql b (tableName : gostring) (index : Index.t)
    : result gostring :=
  let quote := Quote b in
  let '(unique, idxName) :=
    if Index.Type_ index =? UniqueType
    then (str " UNIQUE",
          str "UQE_" ++ tableName ++ str "_" ++ Index.Name index)
    else ([], str "IDX_" ++ tableName ++ str "_" ++ Index.Name index) in
  qi ← quote idxName;
  qt ← quote tableName;
  qc ← quote (str ",");
  qcols ← quote (Join (Index.Cols index) qc);
  Ok (str "CREATE" ++ unique ++ str " INDEX " ++ qi ++ str " ON " ++ qt
      ++ str " (" ++ qcols ++ str ");").

(** The loop [for _, colName := range table.ColumnsSeq()]. *)
Fixpoint columnsLoop d table (pkList : list gostring)
    (names : list gostring) (sql : gostring) : result gostring :=
  match names with
  | [] => Ok sql
  | colName :: rest =>
      col ← deref (Table.GetColumn table colName);
      let sql :=
        if IsPrimaryKey col && (Z.of_nat (length pkList) =? 1)
        then sql ++ Column_String col d
        else sql ++ Column_StringNoPk col d in
      let sql := TrimSpace sql in
      let sql := sql ++ str ", " in
      columnsLoop d table pkList rest sql
  end.

(** [b.dialect] is first used by [b.Quote(tableName)]; once that call has
    returned, the interface value is not nil, and [d] names it. *)
Definition CreateTableSql b table (tableName storeEngine charset : gostring)
    : result gostring :=
  let sql := str "CREATE TABLE IF NOT EXISTS " in
  let tableName :=
    if isEmpty tableName then Table.Name table else tableName in
  q ← Quote b tableName;
  let sql := sql ++ q ++ str " (" in
  let pkList := Table.PrimaryKeys table in
  d ← deref (dialect b);
  sql ← columnsLoop d table pkList (Table.ColumnsSeq table) sql;
  sql ← (if 1 <? Z.of_nat (length pkList)
         then qc ← Quote b (str ",");
              qj ← Quote b (Join pkList qc);
              Ok (sql ++ str "PRIMARY KEY ( " ++ qj ++ str " ), ")
         else Ok sql);
  sql ← sliceTo sql (len sql - 2);
  let sql := sql ++ str ")" in
  let sql :=
    if Dialect.SupportEngine d && negb (isEmpty storeEngine)
    then sql ++ str " ENGINE=" ++ storeEngine
    else sql in
  sql ← (if Dialect.SupportCharset d
         then charset ← (if len charset =? 0
                         then u ← deref (Dialect.URI d); Ok (Uri.Charset u)
                         else Ok charset);
              Ok (if 0 <? len charset
                  then sql ++ str " DEFAULT CHARSET " ++ charset
                  else sql)
         else Ok sql);
  Ok (sql ++ str ";").

(** The statements of [CreateTableSql] between the column loop and the
    slice: the composite primary-key clause. *)
Definition appendCompositeKey b (pkList : list gostring) (sql : gostring)
    : result gostring :=
  if 1 <? Z.of_nat (length pkList)
  then qc ← Quote b (str ",");
       qj ← Quote b (Join pkList qc);
       Ok (sql ++ str "PRIMARY KEY ( " ++ qj ++ str " ), ")
  else Ok sql.

(** The statements of [CreateTableSql] after the slice. *)
Definition closeStatement d (sql storeEngine charset : gostring)
    : result gostring :=
  let sql := sql ++ str ")" in
  let sql :=
    if Dialect.SupportEngine d && negb (isEmpty storeEngine)
    then sql ++ str " ENGINE=" ++ storeEngine
    else sql in
  sql ← (if Dialect.SupportCharset d
         then charset ← (if len charset =? 0
                         then u ← deref (Dialect.URI d); Ok (Uri.Charset u)
                         else Ok charset);
              Ok (if 0 <? len charset
                  then sql ++ str " DEFAULT CHARSET " ++ charset
                  else sql)
         else Ok sql);
  Ok (sql ++ str ";").

End BaseAdapter.

(* ===================================================================== *)
(** ** The layout of the generated statements, in the words of the
       specification *)
(* ===================================================================== *)

Section Layout.

Context {Column : Type} `{ColumnOps Column}.

(** An identifier wrapped in the dialect's quote character. *)
Definition quoted (d : Dialect.t) (c : gostring) : gostring :=
  Dialect.QuoteStr d ++ c ++ Dialect.QuoteStr d.

(** The explicit table name, else the table's own. *)
Definition effectiveName (table : Table.t Column) (tableName : gostring)
    : gostring :=
  match tableName with [] => Table.Name table | _ => tableName end.

Definition header (d : Dialect.t) (name : gostring) : gostring :=
  str "CREATE TABLE IF NOT EXISTS " ++ quoted d name ++ str " (".

(** The definition of a column: the inline primary-key form when the table
    has exactly one primary-key name and the column is flagged as primary
    key, the plain form otherwise. *)
Definition columnDef (d : Dialect.t) (pks : list gostring) (col : Column)
    : gostring :=
  if (length pks =? 1)%nat && IsPrimaryKey col
  then Column_String col d
  else Column_StringNoPk col d.

(** The column definitions in order, separated by commas.  Trailing white
    space of a definition is trimmed; a definition after the first follows
    the space of the separator. *)
Definition columnList (defs : list gostring) : gostring :=
  match defs with
  | [] => []
  | r :: rest =>
      Join (trimRight r :: map (fun r => trimRight (" "%char :: r)) rest)
           (str ",")
  end.

(** The composite primary-key clause. *)
Definition primaryKeyClause (d : Dialect.t) (pks : list gostring)
    : gostring :=
  str "PRIMARY KEY ( " ++ Join (map (quoted d) pks) (str ",") ++ str " )".

(** The clause follows the column list after a separator, and is present
    for two or more primary-key names only. *)
Definition compositeKey (d : Dialect.t) (defs pks : list gostring)
    : gostring :=
  if (2 <=? length pks)%nat
  then match defs with [] => [] | _ => str ", " end ++ primaryKeyClause d pks
  else [].

Definition engineClause (d : Dialect.t) (storeEngine : gostring) : gostring :=
  if Dialect.SupportEngine d && negb (isEmpty storeEngine)
  then str " ENGINE=" ++ storeEngine
  else [].

Definition charsetClause (d : Dialect.t) (u : Uri.t) (charset : gostring)
    : gostring :=
  if Dialect.SupportCharset d
     && (negb (isEmpty charset)
         || (isEmpty charset && negb (isEmpty (Uri.Charset u))))
  then str " DEFAULT CHARSET "
       ++ (if negb (isEmpty charset) then charset else Uri.Charset u)
  else [].

(** Header, column definitions, composite key, closing parenthesis, engine,
    charset, terminator. *)
Definition createTableLayout (d : Dialect.t) (u : Uri.t)
    (name : gostring) (defs pks : list gostring)
    (storeEngine charset : gostring) : gostring :=
  header d name ++ columnList defs ++ compositeKey d defs pks ++ str ")"
  ++ engineClause d storeEngine ++ charsetClause d u charset ++ str ";".

(** What opens the statement: with no column and no composite key, the
    two-character trim removes the end of the header instead of a
    separator. *)
Definition opening (d : Dialect.t) (name : gostring)
    (defs pks : list gostring) : gostring :=
  match defs with
  | [] => if (2 <=? length pks)%nat then header d name
          else str "CREATE TABLE IF NOT EXISTS " ++ quoted d name
  | _ => header d name
  end.

(** The columns that the names of the column sequence resolve to. *)
Definition resolves (table : Table.t Column) (cols : list Column) : Prop :=
  Forall2 (fun n col => Table.GetColumn table n = Some col)
          (Table.ColumnsSeq table) cols.

(** A string without [;]. *)
Definition clean (s : gostring) : Prop := Forall (fun a => a <> ";"%char) s.

End Layout.

(* ===================================================================== *)
(** ** Sample inputs *)
(* ===================================================================== *)

Record SampleColumn : Type := mkColumn {
  colName : gostring;
  colType : gostring;
  colPk : bool
}.

#[global] Instance SampleColumn_ops : ColumnOps SampleColumn := {|
  IsPrimaryKey := colPk;
  Column_String col d :=
    quoted d (colName col) ++ str " " ++ colType col
    ++ (if colPk col then str " PRIMARY KEY NOT NULL " else str " NULL ");
  Column_StringNoPk col d :=
    quoted d (colName col) ++ str " " ++ colType col
    ++ (if colPk col then str " NOT NULL " else str " NULL ")
|}.

Definition sampleUri : Uri.t :=
  Uri.Build (str "mysql") (str "tcp") (str "localhost") (str "3306")
            (str "test") (str "root") [] (str "utf8") [] [] 0.

Definition mysqlDialect : Dialect.t :=
  Dialect.Build (str "`") true true (Some sampleUri).

(** A dialect that quotes with the double quote (code 34) and has neither
    engine nor charset clauses. *)
Definition ansiDialect : Dialect.t :=
  Dialect.Build ["034"%char] false false (Some sampleUri).

Definition mysqlBase : Base unit :=
  mkBase (Some tt) (Some mysqlDialect) (str "mysql") (str "root@/test")
         (Some sampleUri).

Definition ansiBase : Base unit :=
  mkBase (Some tt) (Some ansiDialect) (str "postgres") (str "dbname=test")
         (Some sampleUri).

Definition emptyBase : Base unit := mkBase None None [] [] None.

(** The same dialect as [mysqlBase], bound to no connection and no URI. *)
Definition detachedBase : Base unit :=
  mkBase None (Some mysqlDialect) [] [] None.

Definition lookupIn (cols : list SampleColumn) (n : gostring)
    : option SampleColumn :=
  find (fun col => bool_decide (colName col = n)) cols.

Definition usersColumns : list SampleColumn :=
  [mkColumn (str "id") (str "INT") true;
   mkColumn (str "name") (str "VARCHAR(255)") false].

Definition usersTable : Table.t SampleColumn :=
  Table.Build (str "users") [str "id"; str "name"] [str "id"]
              (lookupIn usersColumns).

Definition membershipColumns : list SampleColumn :=
  [mkColumn (str "user_id") (str "INT") true;
   mkColumn (str "group_id") (str "INT") true].

Definition membershipTable : Table.t SampleColumn :=
  Table.Build (str "membership") [str "user_id"; str "group_id"]
              [str "user_id"; str "group_id"] (lookupIn membershipColumns).

Definition emptyTable : Table.t SampleColumn :=
  Table.Build (str "t") [] [] (lookupIn []).

Definition uniqueIndex : Index.t :=
  Index.Build (str "name") 2 [str "name"; str "id"].

Definition plainIndex : Index.t :=
  Index.Build (str "name") 1 [str "name"].

(** Columns that are their own definition, for tables whose definitions are
    given as text. *)
#[global] Instance TextColumn_ops : ColumnOps gostring := {|
  IsPrimaryKey _ := false;
  Column_String col _ := col;
  Column_StringNoPk col _ := col
|}.

(** A table whose second column has a blank definition. *)
Definition gapTable : Table.t gostring :=
  Table.Build (str "gap") [str "a"; str "b"] []
    (fun n => if bool_decide (n = str "a") then Some (str "`a` INT ")
              else if bool_decide (n = str "b") then Some (str "  ")
              else None).

(** The users table with two more entries in its lookup and another name
    of its own. *)
Definition usersTableWide : Table.t SampleColumn :=
  Table.Build (str "people") [str "id"; str "name"] [str "id"]
              (lookupIn (usersColumns ++ membershipColumns)).

(** The definition of a column when the inline form is decided by the name:
    inline for the column that the single primary-key name names, plain
    otherwise. *)
Definition columnDefByName {Column : Type} `{ColumnOps Column}
    (d : Dialect.t) (pks : list gostring) (n : gostring) (col : Column)
    : gostring :=
  if bool_decide (pks = [n])
  then Column_String col d
  else Column_StringNoPk col d.

(** A table whose flags disagree with its primary-key list: the list names
    [id], the flag is on [name]. *)
Definition misflaggedColumns : list SampleColumn :=
  [mkColumn (str "id") (str "INT") false;
   mkColumn (str "name") (str "VARCHAR(255)") true].

Definition misflaggedTable : Table.t SampleColumn :=
  Table.Build (str "users") [str "id"; str "name"] [str "id"]
              (lookupIn misflaggedColumns).

(** The users table with its flag on [id] and an empty primary-key list. *)
Definition keylessTable : Table.t SampleColumn :=
  Table.Build (str "users") [str "id"; str "name"] []
              (lookupIn usersColumns).

(** The dialect of [ansiBase] with a nil URI, bound to an adapter. *)
Definition ansiDialectNoUri : Dialect.t :=
  Dialect.Build ["034"%char] false false None.

Definition ansiBaseNoUri : Base unit :=
  mkBase None (Some ansiDialectNoUri) [] [] None.

(* ===================================================================== *)
(** ** Properties of the string operations *)
(* ===================================================================== *)

(** A byte that is an ASCII character other than a space.  Such a byte never
    belongs to the encoding of a white-space code point. *)
Definition plain (a : ascii) : Prop :=
  (byte a < 0x80)%N /\ space1 a = false.

Ltac clean_literal :=
  unfold clean; cbv [str list_ascii_of_string];
  repeat (constructor; [discriminate|]); constructor.

Lemma space2_high a b :
  space2 a b = true -> (0x80 <= byte a)%N /\ (0x80 <= byte b)%N.
Proof.
  unfold space2, decode2, isCont.
  destruct (_ && _ && _)%N eqn:E; simpl; [intros _ | discriminate].
  apply andb_prop in E as [E Eb]. apply andb_prop in E as [Ea _].
  apply andb_prop in Eb as [Eb _].
  apply N.leb_le in Ea, Eb. lia.
Qed.

Lemma space3_high a b c :
  space3 a b c = true ->
  (0x80 <= byte a)%N /\ (0x80 <= byte b)%N /\ (0x80 <= byte c)%N.
Proof.
  unfold space3, decode3, isCont.
  destruct (_ && _ && _ && _ && _ && _)%N eqn:E; simpl;
    [intros _ | discriminate].
  repeat (apply andb_prop in E as [E ?]).
  repeat match goal with
         | h : (_ && _)%N = true |- _ => apply andb_prop in h as [? ?]
         | h : (_ <=? _)%N = true |- _ => apply N.leb_le in h
         end.
  lia.
Qed.

Lemma space2_plain_l a b : plain a -> space2 a b = false.
Proof.
  intros [Ha _]. destruct (space2 a b) eqn:E; [|done].
  apply space2_high in E. lia.
Qed.

Lemma space2_plain_r a b : plain b -> space2 a b = false.
Proof.
  intros [Hb _]. destruct (space2 a b) eqn:E; [|done].
  apply space2_high in E. lia.
Qed.

Lemma space3_plain_1 a b c : plain a -> space3 a b c = false.
Proof.
  intros [Ha _]. destruct (space3 a b c) eqn:E; [|done].
  apply space3_high in E. lia.
Qed.

Lemma space3_plain_2 a b c : plain b -> space3 a b c = false.
Proof.
  intros [Hb _]. destruct (space3 a b c) eqn:E; [|done].
  apply space3_high in E. lia.
Qed.

Lemma space3_plain_3 a b c : plain c -> space3 a b c = false.
Proof.
  intros [Hc _]. destruct (space3 a b c) eqn:E; [|done].
  apply space3_high in E. lia.
Qed.

Lemma trimLeft_plain a s : plain a -> trimLeft (a :: s) = a :: s.
Proof.
  intros Ha. simpl. rewrite (proj2 Ha).
  destruct s as [|b [|c s]]; [done | |];
    rewrite ?space2_plain_l, ?space3_plain_1 by done; done.
Qed.

(** Unfolding of [stripRev], one equation per shape of the string. *)
Lemma stripRev_cons c t :
  stripRev (c :: t) =
  if space1 c then stripRev t
  else match t with
       | [] => c :: t
       | b :: t2 =>
           if space2 b c then stripRev t2
           else match t2 with
                | [] => c :: t
                | a :: t3 => if space3 a b c then stripRev t3 else c :: t
                end
       end.
Proof. reflexivity. Qed.

Lemma stripRev_plain c rest : plain c -> stripRev (c :: rest) = c :: rest.
Proof.
  intros Hc. rewrite stripRev_cons, (proj2 Hc).
  destruct rest as [|b [|a rest]]; [done | |];
    rewrite ?space2_plain_r, ?space3_plain_3 by done; done.
Qed.

(** Trimming from the back stops at a plain byte at the latest, and what
    it does before that byte does not depend on what lies behind it. *)
Lemma stripRev_guard_le n : forall x c rest,
  (length x <= n)%nat -> plain c ->
  stripRev (x ++ c :: rest) = stripRev x ++ c :: rest.
Proof.
  induction n as [|n IH]; intros x c rest Hn Hc.
  { destruct x; [|simpl in Hn; lia]. simpl app at 1.
    rewrite stripRev_plain by done. done. }
  destruct x as [|c1 x]; [by rewrite app_nil_l, stripRev_plain|].
  simpl in Hn. rewrite <- app_comm_cons, !stripRev_cons.
  destruct (space1 c1); [apply IH; [lia | done]|].
  destruct x as [|b1 x].
  { simpl app. cbv iota beta. rewrite space2_plain_l by done.
    destruct rest; [done|]. by rewrite space3_plain_2. }
  simpl in Hn. rewrite <- app_comm_cons.
  destruct (space2 b1 c1); [apply IH; [lia | done]|].
  destruct x as [|a1 x].
  { simpl app. cbv iota beta. by rewrite space3_plain_1. }
  simpl in Hn. rewrite <- app_comm_cons.
  destruct (space3 a1 b1 c1); [apply IH; [lia | done]|]. done.
Qed.

Lemma stripRev_guard x c rest :
  plain c -> stripRev (x ++ c :: rest) = stripRev x ++ c :: rest.
Proof. by apply (stripRev_guard_le (length x)). Qed.

Lemma trimRight_guard p c x :
  plain c -> trimRight (p ++ c :: x) = p ++ c :: trimRight x.
Proof.
  intros Hc. unfold trimRight.
  rewrite rev_app_distr. simpl rev at 2. rewrite <- app_assoc. simpl app at 2.
  rewrite stripRev_guard by done.
  rewrite rev_app_distr. simpl. rewrite rev_involutive.
  by rewrite <- app_assoc.
Qed.

(** [TrimSpace] on a string that starts with a plain byte: nothing is
    removed in front, and nothing before the last plain byte. *)
Lemma TrimSpace_guard a p c x :
  plain a -> plain c ->
  TrimSpace (a :: p ++ c :: x) = a :: p ++ c :: trimRight x.
Proof.
  intros Ha Hc. unfold TrimSpace. rewrite trimLeft_plain by done.
  by apply (trimRight_guard (a :: p)).
Qed.

(** When something of the string survives the trimming from the back, an
    ASCII byte behind it, space or not, is out of the reach of the
    trimming. *)
Lemma stripRev_residue_le n : forall x c rest,
  (length x <= n)%nat -> (byte c < 0x80)%N -> stripRev x <> [] ->
  stripRev (x ++ c :: rest) = stripRev x ++ c :: rest.
Proof.
  assert (forall a b, (byte a < 0x80)%N -> space2 a b = false) as S2.
  { intros a b Ha. destruct (space2 a b) eqn:E; [|done].
    apply space2_high in E. lia. }
  assert (forall a b c, (byte a < 0x80)%N -> space3 a b c = false) as S31.
  { intros a b c Ha. destruct (space3 a b c) eqn:E; [|done].
    apply space3_high in E. lia. }
  assert (forall a b c, (byte b < 0x80)%N -> space3 a b c = false) as S32.
  { intros a b c Hb. destruct (space3 a b c) eqn:E; [|done].
    apply space3_high in E. lia. }
  induction n as [|n IH]; intros x c rest Hn Hc Hx.
  { destruct x; [done | simpl in Hn; lia]. }
  destruct x as [|c1 x]; [done|].
  simpl in Hn. rewrite <- app_comm_cons. rewrite stripRev_cons in Hx |- *.
  rewrite (stripRev_cons c1 x).
  destruct (space1 c1); [apply IH; [lia | done | done]|].
  destruct x as [|b1 x].
  { simpl app. cbv iota beta. rewrite S2 by done.
    destruct rest; [done|]. by rewrite S32. }
  simpl in Hn. rewrite <- app_comm_cons.
  destruct (space2 b1 c1); [apply IH; [lia | done | done]|].
  destruct x as [|a1 x].
  { simpl app. cbv iota beta. by rewrite S31. }
  simpl in Hn. rewrite <- app_comm_cons.
  destruct (space3 a1 b1 c1); [apply IH; [lia | done | done]|]. done.
Qed.

Lemma trimRight_after_space r :
  trimRight r <> [] -> trimRight (" "%char :: r) = " "%char :: trimRight r.
Proof.
  intros Hr. unfold trimRight in *. simpl rev at 2.
  rewrite (stripRev_residue_le (length (rev r))); [|done|reflexivity|].
  - by rewrite rev_app_distr.
  - intros E. rewrite E in Hr. done.
Qed.

(** What trimming removes is a part of the string. *)
Lemma stripRev_suffix_le n : forall x,
  (length x <= n)%nat -> exists z, x = z ++ stripRev x.
Proof.
  induction n as [|n IH]; intros x Hn.
  { destruct x; [by exists [] | simpl in Hn; lia]. }
  destruct x as [|c [|b [|a x]]]; simpl in Hn.
  - by exists [].
  - rewrite stripRev_cons. destruct (space1 c); [by exists [c] | by exists []].
  - rewrite stripRev_cons. destruct (space1 c).
    { destruct (IH [b]) as [z Hz]; [simpl; lia|].
      exists (c :: z). by rewrite <- app_comm_cons, <- Hz. }
    destruct (space2 b c); [by exists [c; b] | by exists []].
  - rewrite stripRev_cons. destruct (space1 c).
    { destruct (IH (b :: a :: x)) as [z Hz]; [simpl; lia|].
      exists (c :: z). by rewrite <- app_comm_cons, <- Hz. }
    destruct (space2 b c).
    { destruct (IH (a :: x)) as [z Hz]; [simpl; lia|].
      exists (c :: b :: z). by rewrite <- !app_comm_cons, <- Hz. }
    destruct (space3 a b c); [|by exists []].
    destruct (IH x) as [z Hz]; [lia|].
    exists (c :: b :: a :: z). by rewrite <- !app_comm_cons, <- Hz.
Qed.

Lemma trimRight_prefix x : exists z, x = trimRight x ++ z.
Proof.
  destruct (stripRev_suffix_le (length (rev x)) (rev x)) as [z Hz]; [done|].
  exists (rev z). unfold trimRight.
  rewrite <- rev_app_distr, <- Hz. by rewrite rev_involutive.
Qed.

Lemma clean_trimRight x : clean x -> clean (trimRight x).
Proof.
  unfold clean. destruct (trimRight_prefix x) as [z Hz].
  rewrite Hz at 1. by intros [? _]%Forall_app.
Qed.

Lemma clean_app x y : clean (x ++ y) <-> clean x /\ clean y.
Proof. apply Forall_app. Qed.

Lemma clean_Join l sep : Forall clean l -> clean sep -> clean (Join l sep).
Proof.
  intros Hl Hsep. induction Hl as [|x l Hx Hl IH]; [constructor|].
  destruct l as [|y l]; [done|].
  change (Join (x :: y :: l) sep) with (x ++ sep ++ Join (y :: l) sep).
  rewrite !clean_app. done.
Qed.

Lemma plain_C : plain "C"%char.
Proof. split; reflexivity. Qed.

Lemma plain_lparen : plain "("%char.
Proof. split; reflexivity. Qed.

Lemma plain_comma : plain ","%char.
Proof. split; reflexivity. Qed.

Lemma Join_cons x l sep :
  Join (x :: l) sep = x ++ concat (map (app sep) l).
Proof.
  revert x. induction l as [|y l IH]; intros x.
  - simpl. by rewrite app_nil_r.
  - change (Join (x :: y :: l) sep) with (x ++ sep ++ Join (y :: l) sep).
    rewrite IH. simpl. by rewrite <- app_assoc.
Qed.

Lemma Join_nonempty_quoted d sep x l :
  quoted d (Join (x :: l) (quoted d sep)) = Join (map (quoted d) (x :: l)) sep.
Proof.
  revert x. induction l as [|y l IH]; intros x; [done|].
  change (Join (x :: y :: l) (quoted d sep))
    with (x ++ quoted d sep ++ Join (y :: l) (quoted d sep)).
  change (Join (map (quoted d) (x :: y :: l)) sep)
    with (quoted d x ++ sep ++ Join (map (quoted d) (y :: l)) sep).
  rewrite <- IH. unfold quoted. by rewrite <- !app_assoc.
Qed.

Lemma sliceTo_drop2 s a b :
  sliceTo (s ++ [a; b]) (len (s ++ [a; b]) - 2) = Ok s.
Proof.
  unfold sliceTo, len. rewrite length_app. simpl length.
  replace (Z.of_nat (length s + 2) - 2) with (Z.of_nat (length s)) by lia.
  rewrite Nat2Z.id.
  rewrite (proj2 (Z.leb_le 0 _)), (proj2 (Z.leb_le _ _)) by lia.
  simpl. by rewrite take_app_length.
Qed.

Lemma sliceTo_long s :
  (2 <= length s)%nat -> exists s', sliceTo s (len s - 2) = Ok s'.
Proof.
  intros Hs. unfold sliceTo, len.
  rewrite (proj2 (Z.leb_le 0 _)), (proj2 (Z.leb_le _ _)) by lia.
  simpl. eauto.
Qed.

Lemma len_eqb_0 s : (len s =? 0) = isEmpty s.
Proof. by destruct s. Qed.

Lemma len_ltb_0 s : (0 <? len s) = negb (isEmpty s).
Proof. by destruct s. Qed.

Lemma isEmpty_true s : isEmpty s = true <-> s = [].
Proof. by destruct s. Qed.

Lemma isEmpty_false s : isEmpty s = false <-> s <> [].
Proof. by destruct s. Qed.

(* ===================================================================== *)
(** ** The column loop of [CreateTableSql] *)
(* ===================================================================== *)

Section Synthesis.

Context {DBConn Column : Type} `{ColumnOps Column}.

Implicit Types (b : Base DBConn) (table : Table.t Column) (d : Dialect.t).

Lemma Quote_bound b d c : dialect b = Some d -> Quote b c = Ok (quoted d c).
Proof. intros Hd. unfold Quote. by rewrite Hd. Qed.

Lemma header_shape d name :
  header d name =
  "C"%char :: (str "REATE TABLE IF NOT EXISTS " ++ quoted d name ++ [" "%char])
  ++ ["("%char].
Proof.
  unfold header. change (str " (") with [" "%char; "("%char].
  change (str "CREATE TABLE IF NOT EXISTS ")
    with ("C"%char :: str "REATE TABLE IF NOT EXISTS ").
  rewrite <- app_comm_cons. f_equal. by rewrite <- !app_assoc.
Qed.

(** The renderer chosen by the loop is the column definition. *)
Lemma loop_render d (pks : list gostring) (col : Column) sql :
  (if IsPrimaryKey col && (Z.of_nat (length pks) =? 1)
   then sql ++ Column_String col d
   else sql ++ Column_StringNoPk col d) = sql ++ columnDef d pks col.
Proof.
  unfold columnDef.
  assert ((Z.of_nat (length pks) =? 1) = (length pks =? 1)%nat) as ->.
  { destruct (Nat.eqb_spec (length pks) 1) as [->|Hne]; [done|].
    apply Z.eqb_neq. lia. }
  rewrite andb_comm. by destruct (_ && _).
Qed.

(** One more column after a separator: the white space of the separator
    survives only in front of more text. *)
Lemma TrimSpace_separator a p r :
  plain a ->
  TrimSpace (((a :: p) ++ str ", ") ++ r) =
  (a :: p) ++ str "," ++ trimRight (" "%char :: r).
Proof.
  intros Ha. change (str ", ") with [","%char; " "%char].
  change (str ",") with [","%char].
  rewrite <- app_assoc. simpl app.
  apply (TrimSpace_guard a p ","%char (" "%char :: r) Ha plain_comma).
Qed.

Lemma columnsLoop_separator d table pks names cols :
  Forall2 (fun n col => Table.GetColumn table n = Some col) names cols ->
  forall a p, plain a ->
  columnsLoop d table pks names ((a :: p) ++ str ", ") =
  Ok ((a :: p)
      ++ concat (map (fun col =>
                        str "," ++ trimRight (" "%char :: columnDef d pks col))
                     cols)
      ++ str ", ").
Proof.
  induction 1 as [|n col names cols Hn _ IH]; intros a p Ha; [done|].
  cbn [columnsLoop]. rewrite Hn. cbn [deref mbind result_bind].
  rewrite loop_render, TrimSpace_separator by done.
  rewrite <- app_comm_cons, IH by done.
  cbn [map concat]. by rewrite <- !app_comm_cons, <- !app_assoc.
Qed.

Lemma TrimSpace_header d name r :
  TrimSpace (header d name ++ r) = header d name ++ trimRight r.
Proof.
  rewrite header_shape.
  set (p := str "REATE TABLE IF NOT EXISTS " ++ quoted d name ++ [" "%char]).
  rewrite <- !app_comm_cons, <- !app_assoc.
  change (["("%char] ++ r) with ("("%char :: r).
  change (["("%char] ++ trimRight r) with ("("%char :: trimRight r).
  apply TrimSpace_guard; [apply plain_C | apply plain_lparen].
Qed.

Lemma columnList_cons r rest :
  columnList (r :: rest) =
  trimRight r
  ++ concat (map (fun r => str "," ++ trimRight (" "%char :: r)) rest).
Proof. unfold columnList. by rewrite Join_cons, map_map. Qed.

(** When no definition is blank, the column list is the trimmed definitions
    separated by a comma and a space. *)
Lemma columnList_nonblank defs :
  Forall (fun r => trimRight r <> []) defs ->
  columnList defs = Join (map trimRight defs) (str ", ").
Proof.
  destruct 1 as [|r rest _ Hrest]; [done|].
  rewrite columnList_cons. cbn [map]. rewrite Join_cons. f_equal.
  induction Hrest as [|x rest Hx _ IH]; [done|].
  cbn [map concat]. rewrite IH, trimRight_after_space by done.
  reflexivity.
Qed.

(** The loop in closed form: the header, then the column list, each column
    followed by the separator. *)
Lemma columnsLoop_closed d table pks name names cols :
  Forall2 (fun n col => Table.GetColumn table n = Some col) names cols ->
  columnsLoop d table pks names (header d name) =
  Ok (header d name
      ++ match cols with
         | [] => []
         | _ => columnList (map (columnDef d pks) cols) ++ str ", "
         end).
Proof.
  destruct 1 as [|n col names cols Hn Hrest].
  { simpl. by rewrite app_nil_r. }
  cbn [columnsLoop]. rewrite Hn. cbn [deref mbind result_bind].
  rewrite loop_render, TrimSpace_header.
  rewrite header_shape, <- app_comm_cons.
  rewrite (columnsLoop_separator _ _ _ _ _ Hrest) by apply plain_C.
  cbn [map]. rewrite columnList_cons, map_map.
  by rewrite <- !app_comm_cons, <- !app_assoc.
Qed.

(** The loop never makes the string shorter than a separator. *)
Lemma columnsLoop_length d table pks names : forall sql s,
  columnsLoop d table pks names sql = Ok s ->
  (2 <= length sql)%nat -> (2 <= length s)%nat.
Proof.
  induction names as [|n names IH]; intros sql s.
  { simpl. intros [= <-]. done. }
  cbn [columnsLoop]. destruct (Table.GetColumn table n) as [col|]; [|done].
  cbn [deref mbind result_bind]. intros Hs _. apply IH in Hs; [done|].
  rewrite length_app. change (str ", ") with [","%char; " "%char]. simpl. lia.
Qed.

(** It panics only on a column name that does not resolve. *)
Lemma columnsLoop_panic d table pks names : forall sql p,
  columnsLoop d table pks names sql = Panic p -> p = NilDereference.
Proof.
  induction names as [|n names IH]; intros sql p; [done|].
  cbn [columnsLoop]. destruct (Table.GetColumn table n) as [col|].
  - cbn [deref mbind result_bind]. apply IH.
  - cbn [deref mbind result_bind]. by intros [= <-].
Qed.

Lemma sliceTo_separator s :
  sliceTo (s ++ str ", ") (len (s ++ str ", ") - 2) = Ok s.
Proof. apply sliceTo_drop2. Qed.

Lemma sliceTo_header d name :
  sliceTo (header d name) (len (header d name) - 2) =
  Ok (str "CREATE TABLE IF NOT EXISTS " ++ quoted d name).
Proof. unfold header. rewrite app_assoc. apply sliceTo_drop2. Qed.

(** [CreateTableSql], statement by statement. *)
Lemma CreateTableSql_steps b table tableName storeEngine charset :
  CreateTableSql b table tableName storeEngine charset =
  q ← Quote b (if isEmpty tableName then Table.Name table else tableName);
  d ← deref (dialect b);
  sql ← columnsLoop d table (Table.PrimaryKeys table)
          (Table.ColumnsSeq table)
          (str "CREATE TABLE IF NOT EXISTS " ++ q ++ str " (");
  sql ← appendCompositeKey b (Table.PrimaryKeys table) sql;
  sql ← sliceTo sql (len sql - 2);
  closeStatement d sql storeEngine charset.
Proof. reflexivity. Qed.

(** The clauses after the closing parenthesis. *)
Lemma closeStatement_closed d u (sql storeEngine charset : gostring) :
  Dialect.URI d = Some u ->
  closeStatement d sql storeEngine charset =
  Ok (sql ++ str ")" ++ engineClause d storeEngine
      ++ charsetClause d u charset ++ str ";").
Proof.
  intros Hu. unfold closeStatement, engineClause, charsetClause.
  rewrite Hu, len_eqb_0. cbn [deref mbind result_bind].
  destruct (Dialect.SupportEngine d), storeEngine as [|e0 e],
    (Dialect.SupportCharset d), charset as [|c0 c],
    (Uri.Charset u) as [|u0 uc];
    cbn [mbind result_bind isEmpty negb andb orb];
    rewrite ?len_ltb_0; cbn [isEmpty negb];
    by rewrite <- ?app_assoc, ?app_nil_r.
Qed.

(** The composite key is appended for two or more names, each quoted. *)
Lemma appendCompositeKey_closed b d pks sql :
  dialect b = Some d ->
  appendCompositeKey b pks sql =
  Ok (sql ++ if (2 <=? length pks)%nat
             then primaryKeyClause d pks ++ str ", " else []).
Proof.
  intros Hd. unfold appendCompositeKey.
  assert ((1 <? Z.of_nat (length pks)) = (2 <=? length pks)%nat) as ->.
  { destruct (Nat.leb_spec 2 (length pks)).
    - apply Z.ltb_lt. lia.
    - apply Z.ltb_ge. lia. }
  destruct (2 <=? length pks)%nat eqn:Epk; [|by rewrite app_nil_r].
  destruct pks as [|k pks]; [done|].
  rewrite (Quote_bound b d (str ",") Hd). cbn [mbind result_bind].
  rewrite (Quote_bound b d _ Hd). cbn [mbind result_bind].
  rewrite Join_nonempty_quoted. unfold primaryKeyClause.
  by rewrite <- !app_assoc.
Qed.

(** [CreateTableSql] in closed form, for an initialised adapter and a table
    whose column names resolve. *)
Lemma CreateTableSql_closed b d u table cols tableName storeEngine charset :
  dialect b = Some d -> Dialect.URI d = Some u -> resolves table cols ->
  CreateTableSql b table tableName storeEngine charset =
  Ok (opening d (effectiveName table tableName)
              (map (columnDef d (Table.PrimaryKeys table)) cols)
              (Table.PrimaryKeys table)
      ++ columnList (map (columnDef d (Table.PrimaryKeys table)) cols)
      ++ compositeKey d (map (columnDef d (Table.PrimaryKeys table)) cols)
                      (Table.PrimaryKeys table)
      ++ str ")" ++ engineClause d storeEngine
      ++ charsetClause d u charset ++ str ";").
Proof.
  intros Hd Hu Hcols. rewrite CreateTableSql_steps.
  assert ((if isEmpty tableName then Table.Name table else tableName)
          = effectiveName table tableName) as -> by (by destruct tableName).
  set (name := effectiveName table tableName).
  set (pks := Table.PrimaryKeys table).
  rewrite (Quote_bound b d name Hd), Hd.
  cbn [deref mbind result_bind]. fold (header d name).
  rewrite (columnsLoop_closed d table pks name _ cols Hcols).
  cbn [mbind result_bind].
  rewrite (appendCompositeKey_closed b d pks _ Hd).
  cbn [mbind result_bind].
  unfold compositeKey, opening.
  destruct (2 <=? length pks)%nat eqn:Epk, cols as [|col cols]; cbn [map].
  - rewrite app_nil_r, app_assoc, sliceTo_separator.
    cbn [mbind result_bind]. rewrite (closeStatement_closed d u _ _ _ Hu).
    by rewrite <- !app_assoc.
  - set (defs := columnDef d pks col :: map (columnDef d pks) cols).
    rewrite !app_assoc, sliceTo_separator.
    cbn [mbind result_bind]. rewrite (closeStatement_closed d u _ _ _ Hu).
    by rewrite <- !app_assoc.
  - rewrite !app_nil_r, sliceTo_header.
    cbn [mbind result_bind]. rewrite (closeStatement_closed d u _ _ _ Hu).
    by rewrite <- !app_assoc.
  - set (defs := columnDef d pks col :: map (columnDef d pks) cols).
    rewrite app_nil_r, app_assoc, sliceTo_separator.
    cbn [mbind result_bind]. rewrite (closeStatement_closed d u _ _ _ Hu).
    by rewrite <- !app_assoc.
Qed.

End Synthesis.

(* ===================================================================== *)
(** ** The statements produced by [CreateTableSql] *)
(* ===================================================================== *)

Section CreateTable.

Context {DBConn Column : Type} `{ColumnOps Column}.

Implicit Types (b : Base DBConn) (table : Table.t Column) (d : Dialect.t).

(** C1 (amended: the inline form follows the flag).  With exactly one
    primary-key name the closing parenthesis follows the column list
    directly: there is no trailing [PRIMARY KEY ( ... )] clause, and a
    column is rendered in the inline form exactly when it is flagged as
    primary key.  With two or more names the column list, all in the plain
    form, is followed by one [PRIMARY KEY ( ... )] clause that lists the
    quoted primary-key names, all of them and in their declared order.
    When the flags agree with the primary-key list, the column rendered
    inline in the first case is the one that the single name names, and
    only that one. *)
Theorem primary_key_clause_by_key_count
    b d u table cols tableName storeEngine charset :
  dialect b = Some d -> Dialect.URI d = Some u -> resolves table cols ->
  let pks := Table.PrimaryKeys table in
  let name := effectiveName table tableName in
  let rest := str ")" ++ engineClause d storeEngine
              ++ charsetClause d u charset ++ str ";" in
  (length pks = 1%nat ->
   let defs := map (fun col => if IsPrimaryKey col then Column_String col d
                               else Column_StringNoPk col d) cols in
   CreateTableSql b table tableName storeEngine charset =
   Ok (opening d name defs pks ++ columnList defs ++ rest))
  /\ ((2 <= length pks)%nat ->
      let defs := map (fun col => Column_StringNoPk col d) cols in
      CreateTableSql b table tableName storeEngine charset =
      Ok (header d name ++ columnList defs
          ++ match defs with [] => [] | _ => str ", " end
          ++ str "PRIMARY KEY ( " ++ Join (map (quoted d) pks) (str ",")
          ++ str " )" ++ rest))
  /\ (length pks = 1%nat ->
      Forall2 (fun n col => IsPrimaryKey col = bool_decide (n ∈ pks))
              (Table.ColumnsSeq table) cols ->
      let defs := zip_with (columnDefByName d pks)
                           (Table.ColumnsSeq table) cols in
      CreateTableSql b table tableName storeEngine charset =
      Ok (opening d name defs pks ++ columnList defs ++ rest)).
Proof.
  intros Hd Hu Hcols pks name rest.
  pose proof (CreateTableSql_closed b d u table cols tableName storeEngine
                charset Hd Hu Hcols) as Hclosed.
  fold pks name in Hclosed. split; [|split].
  - intros Hone defs. rewrite Hclosed.
    assert (map (columnDef d pks) cols = defs) as ->.
    { apply map_ext. intros col. unfold columnDef. by rewrite Hone. }
    unfold compositeKey. by rewrite Hone.
  - intros Htwo defs. rewrite Hclosed.
    assert (map (columnDef d pks) cols = defs) as ->.
    { apply map_ext. intros col. unfold columnDef.
      destruct (Nat.eqb_spec (length pks) 1); [lia | done]. }
    unfold compositeKey, opening, primaryKeyClause.
    destruct (Nat.leb_spec 2 (length pks)); [|lia].
    destruct defs; by rewrite <- ?app_assoc.
  - intros Hone Hflags defs. rewrite Hclosed.
    assert (map (columnDef d pks) cols = defs) as ->.
    { unfold defs. clear Hclosed Hcols.
      induction Hflags as [|n col names cols' Hflag _ IH]; [done|].
      cbn [map zip_with]. rewrite IH. f_equal.
      unfold columnDef, columnDefByName. rewrite Hone, Hflag. cbn [Nat.eqb andb].
      destruct pks as [|k [|k' pks']]; try done.
      assert (bool_decide (n ∈ [k]) = bool_decide ([k] = [n])) as ->; [|done].
      apply bool_decide_ext. rewrite list_elem_of_singleton.
      split; [by intros -> | by intros [= ->]]. }
    unfold compositeKey. by rewrite Hone.
Qed.

(** C3. The statement ends with the engine clause, the charset clause and
    the terminator, after a body that does not depend on the engine and
    charset arguments.  The engine clause is [ ENGINE=<e>] when the dialect
    supports engines and [e] is not empty, and is absent otherwise; the
    charset clause is [ DEFAULT CHARSET <c>] when the dialect supports
    charsets and the argument or else the URI's charset is not empty, with
    [<c>] the argument when it is not empty and the URI's charset otherwise,
    and is absent otherwise. *)
Theorem engine_and_charset_clauses b d u table cols tableName :
  dialect b = Some d -> Dialect.URI d = Some u -> resolves table cols ->
  exists body, forall storeEngine charset,
    exists engine cs,
      CreateTableSql b table tableName storeEngine charset =
      Ok (body ++ engine ++ cs ++ str ";")
      /\ engine = engineClause d storeEngine
      /\ cs = charsetClause d u charset
      /\ (engine = str " ENGINE=" ++ storeEngine
          /\ Dialect.SupportEngine d = true /\ storeEngine <> []
          \/ engine = []
             /\ ~ (Dialect.SupportEngine d = true /\ storeEngine <> []))
      /\ (cs = str " DEFAULT CHARSET "
               ++ (match charset with [] => Uri.Charset u | _ => charset end)
          /\ Dialect.SupportCharset d = true
          /\ (charset <> [] \/ charset = [] /\ Uri.Charset u <> [])
          \/ cs = []
             /\ ~ (Dialect.SupportCharset d = true
                   /\ (charset <> []
                       \/ charset = [] /\ Uri.Charset u <> []))).
Proof.
  intros Hd Hu Hcols.
  set (pks := Table.PrimaryKeys table).
  set (defs := map (columnDef d pks) cols).
  exists (opening d (effectiveName table tableName) defs pks
          ++ columnList defs ++ compositeKey d defs pks ++ str ")").
  intros storeEngine charset.
  exists (engineClause d storeEngine), (charsetClause d u charset).
  split; [|split; [done|split; [done|split]]].
  - rewrite (CreateTableSql_closed b d u table cols) by done.
    by rewrite <- !app_assoc.
  - unfold engineClause.
    destruct (Dialect.SupportEngine d), storeEngine as [|e0 e];
      cbn [isEmpty negb andb]; [right | left | right | right];
      (split; [done|]); try done; intros [? ?]; done.
  - unfold charsetClause.
    destruct (Dialect.SupportCharset d), charset as [|c0 c],
      (Uri.Charset u) as [|u0 uc]; cbn [isEmpty negb andb orb];
      first [ left; split; [done|]; split; [done|]; first [by left | by right]
            | right; split; [done|]; intros [? [?|[? ?]]]; done ].
Qed.

(** C7 (amended to tables with a column or a composite key).  The clauses
    come in the fixed order: header, column definitions in the declared
    column order, composite primary-key clause when present, closing
    parenthesis, engine clause when present, charset clause when present,
    terminator. *)
Theorem clause_order b d u table cols tableName storeEngine charset :
  dialect b = Some d -> Dialect.URI d = Some u -> resolves table cols ->
  Table.ColumnsSeq table <> [] \/ (2 <= length (Table.PrimaryKeys table))%nat ->
  CreateTableSql b table tableName storeEngine charset =
  Ok (createTableLayout d u (effectiveName table tableName)
        (map (columnDef d (Table.PrimaryKeys table)) cols)
        (Table.PrimaryKeys table) storeEngine charset).
Proof.
  intros Hd Hu Hcols Hne.
  rewrite (CreateTableSql_closed b d u table cols) by done.
  unfold createTableLayout. do 2 f_equal. unfold opening.
  destruct Hcols as [|n col names cols Hn Hrest]; [|done].
  destruct Hne as [Hne|Hpk]; [done|].
  by destruct (Nat.leb_spec 2 (length (Table.PrimaryKeys table))); [|lia].
Qed.

End CreateTable.

(* ===================================================================== *)
(** ** Statements without a batch separator *)
(* ===================================================================== *)

Lemma clean_quoted d c :
  clean (Dialect.QuoteStr d) -> clean c -> clean (quoted d c).
Proof. intros Hq Hc. unfold quoted. by rewrite !clean_app. Qed.

Lemma clean_header d name :
  clean (Dialect.QuoteStr d) -> clean name -> clean (header d name).
Proof.
  intros Hq Hn. unfold header. rewrite !clean_app.
  split; [clean_literal|]. split; [by apply clean_quoted | clean_literal].
Qed.

Lemma clean_opening d name defs pks :
  clean (Dialect.QuoteStr d) -> clean name -> clean (opening d name defs pks).
Proof.
  intros Hq Hn. unfold opening.
  destruct defs, (2 <=? length pks)%nat; try by apply clean_header.
  rewrite clean_app. split; [clean_literal | by apply clean_quoted].
Qed.

Lemma clean_columnList defs : Forall clean defs -> clean (columnList defs).
Proof.
  intros Hdefs. unfold columnList. destruct Hdefs as [|r rest Hr Hrest]; [constructor|].
  apply clean_Join; [|clean_literal].
  constructor; [by apply clean_trimRight|].
  apply Forall_map. eapply Forall_impl; [exact Hrest|].
  intros x Hx. apply clean_trimRight. constructor; [discriminate | done].
Qed.

Lemma clean_primaryKeyClause d pks :
  clean (Dialect.QuoteStr d) -> Forall clean pks ->
  clean (primaryKeyClause d pks).
Proof.
  intros Hq Hpks. unfold primaryKeyClause. rewrite !clean_app.
  split; [clean_literal|]. split; [|clean_literal].
  apply clean_Join; [|clean_literal].
  apply Forall_map. eapply Forall_impl; [exact Hpks|].
  intros x Hx. by apply clean_quoted.
Qed.

Lemma clean_compositeKey d defs pks :
  clean (Dialect.QuoteStr d) -> Forall clean pks ->
  clean (compositeKey d defs pks).
Proof.
  intros Hq Hpks. unfold compositeKey.
  destruct (2 <=? length pks)%nat; [|constructor].
  rewrite clean_app. split; [|by apply clean_primaryKeyClause].
  destruct defs; [constructor | clean_literal].
Qed.

Lemma clean_engineClause d e : clean e -> clean (engineClause d e).
Proof.
  intros He. unfold engineClause. destruct (_ && _); [|constructor].
  rewrite clean_app. split; [clean_literal | done].
Qed.

Lemma clean_charsetClause d u c :
  clean c -> clean (Uri.Charset u) -> clean (charsetClause d u c).
Proof.
  intros Hc Hu. unfold charsetClause. destruct (_ && _); [|constructor].
  rewrite clean_app. split; [clean_literal | by destruct (negb _)].
Qed.

(* ===================================================================== *)
(** ** [CreateIndexSql], [DropTableSql] and the accessors *)
(* ===================================================================== *)

Section Statements.

Context {DBConn Column : Type} `{ColumnOps Column}.
Variable UniqueType : Z.

Implicit Types (b : Base DBConn) (table : Table.t Column) (d : Dialect.t).

Lemma CreateIndexSql_closed b d tableName index :
  dialect b = Some d ->
  CreateIndexSql UniqueType b tableName index =
  Ok (str "CREATE"
      ++ (if Index.Type_ index =? UniqueType then str " UNIQUE" else [])
      ++ str " INDEX "
      ++ quoted d ((if Index.Type_ index =? UniqueType
                    then str "UQE_" else str "IDX_")
                   ++ tableName ++ str "_" ++ Index.Name index)
      ++ str " ON " ++ quoted d tableName ++ str " ("
      ++ quoted d (Join (Index.Cols index) (quoted d (str ",")))
      ++ str ");").
Proof.
  intros Hd. unfold CreateIndexSql.
  destruct (Index.Type_ index =? UniqueType);
    rewrite !(Quote_bound b d _ Hd); cbn [mbind result_bind];
    rewrite !(Quote_bound b d _ Hd); cbn [mbind result_bind];
    by rewrite <- ?app_assoc.
Qed.

(** C2. The statement begins with [CREATE UNIQUE INDEX] exactly when the
    index has the unique type and with [CREATE INDEX] otherwise; the quoted
    index name that follows is [UQE_<table>_<name>] for a unique index and
    [IDX_<table>_<name>] otherwise. *)
Theorem create_index_keyword_and_name b d tableName index :
  dialect b = Some d ->
  exists s,
    CreateIndexSql UniqueType b tableName index = Ok s
    /\ (str "CREATE UNIQUE INDEX " `prefix_of` s
        <-> Index.Type_ index = UniqueType)
    /\ (str "CREATE INDEX " `prefix_of` s
        <-> Index.Type_ index <> UniqueType)
    /\ (Index.Type_ index = UniqueType ->
        s = str "CREATE UNIQUE INDEX "
            ++ quoted d (str "UQE_" ++ tableName ++ str "_" ++ Index.Name index)
            ++ str " ON " ++ quoted d tableName ++ str " ("
            ++ quoted d (Join (Index.Cols index) (quoted d (str ",")))
            ++ str ");")
    /\ (Index.Type_ index <> UniqueType ->
        s = str "CREATE INDEX "
            ++ quoted d (str "IDX_" ++ tableName ++ str "_" ++ Index.Name index)
            ++ str " ON " ++ quoted d tableName ++ str " ("
            ++ quoted d (Join (Index.Cols index) (quoted d (str ",")))
            ++ str ");").
Proof.
  intros Hd. eexists. split; [by apply CreateIndexSql_closed|].
  destruct (Z.eqb_spec (Index.Type_ index) UniqueType) as [Heq|Hne].
  - split; [|split; [|split]]; [| |done|done].
    + split; [done|]. intros _. eexists. reflexivity.
    + split; [|done]. intros [k Hk]. cbv [str list_ascii_of_string app] in Hk.
      discriminate.
  - split; [|split; [|split]]; [| |done|done].
    + split; [|done]. intros [k Hk]. cbv [str list_ascii_of_string app] in Hk.
      discriminate.
    + split; [done|]. intros _. eexists. reflexivity.
Qed.

(** The statement and its terminator, with the conditions under which the
    terminator is the only [;]. *)
Lemma CreateIndexSql_terminated b d tableName index :
  dialect b = Some d ->
  exists body,
    CreateIndexSql UniqueType b tableName index = Ok (body ++ str ";")
    /\ (clean (Dialect.QuoteStr d) -> clean tableName ->
        clean (Index.Name index) -> Forall clean (Index.Cols index) ->
        clean body).
Proof.
  intros Hd. rewrite (CreateIndexSql_closed b d) by done.
  change (str ");") with (str ")" ++ str ";").
  eexists. split; [by rewrite !app_assoc|].
  intros Hq Ht Hn Hcols.
  assert (clean (quoted d (str ","))) as Hsep
    by (apply clean_quoted; [done | clean_literal]).
  rewrite !clean_app. repeat split; try clean_literal.
  - destruct (_ =? _); [clean_literal | constructor].
  - apply clean_quoted; [done|]. rewrite !clean_app.
    repeat split; try done; try clean_literal.
    destruct (_ =? _); clean_literal.
  - by apply clean_quoted.
  - apply clean_quoted; [done|]. by apply clean_Join.
Qed.

Lemma CreateTableSql_terminated b d u table cols tableName storeEngine charset :
  dialect b = Some d -> Dialect.URI d = Some u -> resolves table cols ->
  exists body,
    CreateTableSql b table tableName storeEngine charset
    = Ok (body ++ str ";")
    /\ (clean (Dialect.QuoteStr d) -> clean (effectiveName table tableName) ->
        Forall clean (Table.PrimaryKeys table) ->
        Forall (fun col => clean (Column_String col d)
                           /\ clean (Column_StringNoPk col d)) cols ->
        clean storeEngine -> clean charset -> clean (Uri.Charset u) ->
        clean body).
Proof.
  intros Hd Hu Hcols. rewrite (CreateTableSql_closed b d u table cols) by done.
  eexists. split; [by rewrite !app_assoc|].
  intros Hq Hn Hpks Hdefs He Hc Hcs.
  assert (Forall clean (map (columnDef d (Table.PrimaryKeys table)) cols)).
  { apply Forall_map. eapply Forall_impl; [exact Hdefs|].
    intros col [? ?]. unfold columnDef. by destruct (_ && _). }
  rewrite !clean_app. repeat split.
  - by apply clean_opening.
  - by apply clean_columnList.
  - by apply clean_compositeKey.
  - clean_literal.
  - by apply clean_engineClause.
  - by apply clean_charsetClause.
Qed.

(** C5 (amended: [DropTableSql] has no terminator).  [CreateTableSql] and
    [CreateIndexSql] return one statement that ends with [;], and that [;]
    is the only one when the names, the column definitions, the quote
    character, the engine and the charsets contain none; [DropTableSql]
    returns [DROP TABLE IF EXISTS `<name>`], which ends with the backquote
    and has no [;] unless the name has one. *)
Theorem statements_and_terminator
    b d u table cols tableName storeEngine charset index :
  dialect b = Some d -> Dialect.URI d = Some u -> resolves table cols ->
  (exists body,
     CreateTableSql b table tableName storeEngine charset
     = Ok (body ++ str ";")
     /\ (clean (Dialect.QuoteStr d) ->
         clean (effectiveName table tableName) ->
         Forall clean (Table.PrimaryKeys table) ->
         Forall (fun col => clean (Column_String col d)
                            /\ clean (Column_StringNoPk col d)) cols ->
         clean storeEngine -> clean charset -> clean (Uri.Charset u) ->
         clean body))
  /\ (exists body,
        CreateIndexSql UniqueType b tableName index = Ok (body ++ str ";")
        /\ (clean (Dialect.QuoteStr d) -> clean tableName ->
            clean (Index.Name index) -> Forall clean (Index.Cols index) ->
            clean body))
  /\ DropTableSql b tableName
     = str "DROP TABLE IF EXISTS `" ++ tableName ++ str "`"
  /\ last (DropTableSql b tableName) = Some "`"%char
  /\ (clean tableName -> clean (DropTableSql b tableName)).
Proof.
  intros Hd Hu Hcols. split; [|split; [|split; [|split]]].
  - by apply (CreateTableSql_terminated b d u table cols).
  - by apply CreateIndexSql_terminated.
  - done.
  - unfold DropTableSql. rewrite app_assoc. apply last_snoc.
  - intros Ht. unfold DropTableSql. rewrite !clean_app.
    repeat split; [clean_literal | done | clean_literal].
Qed.

(** C8. The synthesis methods read nothing but their arguments and the
    dialect bound to the adapter: two adapter states with the same dialect
    value (quote character, capability flags, URI), whatever their
    connection, driver name, data-source name and own URI, return the same
    result on the same inputs.  No global and no clock is an input of the
    functions. *)
Theorem synthesis_is_deterministic
    b1 b2 table tableName storeEngine charset index :
  dialect b1 = dialect b2 ->
  DropTableSql b1 tableName = DropTableSql b2 tableName
  /\ CreateIndexSql UniqueType b1 tableName index
     = CreateIndexSql UniqueType b2 tableName index
  /\ CreateTableSql b1 table tableName storeEngine charset
     = CreateTableSql b2 table tableName storeEngine charset.
Proof.
  intros Hd. split; [done|]. split.
  - unfold CreateIndexSql, Quote. by rewrite Hd.
  - unfold CreateTableSql, Quote. by rewrite Hd.
Qed.

(** The only run-time failure of [CreateTableSql] is a nil dereference: the
    slice is in bounds on every input. *)
Lemma closeStatement_panic d sql storeEngine charset p :
  closeStatement d sql storeEngine charset = Panic p -> p = NilDereference.
Proof.
  unfold closeStatement.
  destruct (Dialect.SupportCharset d); [|done].
  destruct (len charset =? 0); [|done].
  destruct (Dialect.URI d); [done|].
  cbn [deref mbind result_bind]. by intros [= <-].
Qed.

Lemma CreateTableSql_panic_kind b table tableName storeEngine charset p :
  CreateTableSql b table tableName storeEngine charset = Panic p ->
  p = NilDereference.
Proof.
  rewrite CreateTableSql_steps.
  set (name := if isEmpty tableName then Table.Name table else tableName).
  destruct (dialect b) as [d|] eqn:Hd.
  2:{ unfold Quote. rewrite Hd. cbn [deref mbind result_bind].
      by intros [= <-]. }
  rewrite (Quote_bound b d name Hd). cbn [deref mbind result_bind].
  fold (header d name).
  destruct (columnsLoop _ _ _ _ _) as [sql|p'] eqn:Hloop.
  2:{ cbn [mbind result_bind]. intros [= <-].
      by apply columnsLoop_panic in Hloop. }
  cbn [mbind result_bind].
  rewrite (appendCompositeKey_closed b d _ _ Hd). cbn [mbind result_bind].
  apply columnsLoop_length in Hloop.
  2:{ unfold header. rewrite !length_app.
      change (length (str " (")) with 2%nat. lia. }
  match goal with
  | |- context [sliceTo ?s _] =>
      destruct (sliceTo_long s) as [s' ->]; [rewrite length_app; lia|]
  end.
  cbn [mbind result_bind]. apply closeStatement_panic.
Qed.

(** C9. A table with no column and fewer than two primary-key names: the
    slice removes the two last characters of the header and is in bounds,
    and the call returns a statement, in which the opening parenthesis is
    missing.  On no input at all does the slice leave its bounds. *)
Theorem zero_columns_returns b d u table tableName storeEngine charset :
  dialect b = Some d -> Dialect.URI d = Some u ->
  Table.ColumnsSeq table = [] ->
  (length (Table.PrimaryKeys table) < 2)%nat ->
  let name := effectiveName table tableName in
  sliceTo (header d name) (len (header d name) - 2)
  = Ok (str "CREATE TABLE IF NOT EXISTS " ++ quoted d name)
  /\ CreateTableSql b table tableName storeEngine charset
     = Ok (str "CREATE TABLE IF NOT EXISTS " ++ quoted d name ++ str ")"
           ++ engineClause d storeEngine ++ charsetClause d u charset
           ++ str ";")
  /\ (forall (b' : Base DBConn) tableName' storeEngine' charset',
        CreateTableSql b' table tableName' storeEngine' charset'
        <> Panic SliceOutOfRange).
Proof.
  intros Hd Hu Hseq Hpk name. split; [apply sliceTo_header|]. split.
  - assert (resolves table []) as Hcols.
    { unfold resolves. rewrite Hseq. constructor. }
    rewrite (CreateTableSql_closed b d u table [] _ _ _ Hd Hu Hcols).
    cbn [map]. unfold opening, compositeKey, columnList.
    destruct (Nat.leb_spec 2 (length (Table.PrimaryKeys table))); [lia|].
    fold name. by rewrite <- !app_assoc.
  - intros b' tableName' storeEngine' charset' Hp.
    by apply CreateTableSql_panic_kind in Hp.
Qed.

(** C10 (amended: [DBType] needs a URI).  [Init] returns the nil error on
    every input, nil pointers included, and stores the five values as they
    are; afterwards [DB], [URI], [DriverName] and [DataSourceName] return
    the values of that call, and [DBType] returns the [DbType] field of the
    bound URI, which it dereferences. *)
Theorem Init_binds_all_inputs b (db0 : option DBConn) dialect0 uri
    drivername dataSourceName0 :
  let b' := fst (Init b db0 dialect0 uri drivername dataSourceName0) in
  snd (Init b db0 dialect0 uri drivername dataSourceName0) = None
  /\ DB b' = db0
  /\ dialect b' = dialect0
  /\ URI b' = uri
  /\ DriverName b' = drivername
  /\ DataSourceName b' = dataSourceName0
  /\ DBType b' = match uri with
                 | Some u => Ok (Uri.DbType u)
                 | None => Panic NilDereference
                 end.
Proof. repeat split. by destruct uri. Qed.

End Statements.

(** C4.  [DropTableSql] writes the backquote whatever the dialect's quote
    character is: its result is the name wrapped in the dialect's quote
    character only for a dialect that quotes with the backquote.  For a
    dialect that quotes with the double quote, the table name is not
    wrapped in that character, while [Quote] does wrap it. *)
Theorem DropTableSql_ignores_quote_character :
  (forall (DBConn : Type) (b : Base DBConn) d tableName,
     DropTableSql b tableName
     = str "DROP TABLE IF EXISTS " ++ quoted d tableName
     <-> Dialect.QuoteStr d = str "`")
  /\ Dialect.QuoteStr ansiDialect = ["034"%char]
  /\ DropTableSql ansiBase (str "orders") = str "DROP TABLE IF EXISTS `orders`"
  /\ DropTableSql ansiBase (str "orders")
     <> str "DROP TABLE IF EXISTS " ++ quoted ansiDialect (str "orders")
  /\ Quote ansiBase (str "orders") = Ok (quoted ansiDialect (str "orders")).
Proof.
  split; [|repeat split; discriminate].
  intros DBConn b d tableName. unfold DropTableSql, quoted. split.
  - change (str "DROP TABLE IF EXISTS `")
      with (str "DROP TABLE IF EXISTS " ++ str "`").
    rewrite <- app_assoc. intros E%app_inv_head.
    assert (length (Dialect.QuoteStr d) = 1%nat) as Hlen.
    { apply (f_equal length) in E. rewrite !length_app in E.
      change (length (str "`")) with 1%nat in E. lia. }
    destruct (Dialect.QuoteStr d) as [|q [|q' l]]; try done.
    change (str "`") with ["`"%char] in *. simpl in E. by injection E as ->.
  - intros ->. change (str "DROP TABLE IF EXISTS `")
      with (str "DROP TABLE IF EXISTS " ++ str "`").
    by rewrite <- app_assoc.
Qed.

(* ===================================================================== *)
(** ** The registry *)
(* ===================================================================== *)

Lemma registerAll_lookup_other calls : forall dialects X,
  X ∉ calls.*1 ->
  exists dialects',
    registerAll calls dialects = Ok dialects'
    /\ QueryDialect X dialects' = QueryDialect X dialects.
Proof.
  induction calls as [|[dbName d] calls IH]; intros dialects X HX.
  { by exists dialects. }
  cbn [registerAll RegisterDialect mbind result_bind].
  rewrite fmap_cons, not_elem_of_cons in HX. destruct HX as [Hne HX].
  destruct (IH (<[dbName := d]> dialects) X HX) as [dialects' [-> Hq]].
  exists dialects'. split; [done|]. rewrite Hq.
  unfold QueryDialect. by rewrite lookup_insert_ne.
Qed.

(** C6. Registering the nil dialect panics; after registering [d1] and then
    [d2] under one identifier, looking the identifier up returns [d2]; and
    an identifier that no registration has named is looked up as nil, the
    lookup itself being a total function. *)
Theorem registry_contract :
  (forall X dialects,
     RegisterDialect X None dialects
     = Panic (PanicValue (str "core: Register dialect is nil")))
  /\ (forall X d1 d2 dialects,
        (dialects1 ← RegisterDialect X (Some d1) dialects;
         dialects2 ← RegisterDialect X (Some d2) dialects1;
         Ok (QueryDialect X dialects2)) = Ok (Some d2))
  /\ (forall calls X,
        X ∉ calls.*1 ->
        exists dialects,
          registerAll calls dialects0 = Ok dialects
          /\ QueryDialect X dialects = None).
Proof.
  split; [done|]. split.
  - intros X d1 d2 dialects. cbn [RegisterDialect mbind result_bind].
    unfold QueryDialect. by rewrite lookup_insert_eq.
  - intros calls X HX.
    destruct (registerAll_lookup_other calls dialects0 X HX)
      as [dialects [Hr Hq]].
    exists dialects. split; [done|]. rewrite Hq. apply lookup_empty.
Qed.

(* ===================================================================== *)
(** ** The theorems at sample inputs *)
(* ===================================================================== *)

Lemma usersTable_resolves : resolves usersTable usersColumns.
Proof. repeat constructor. Qed.

Lemma membershipTable_resolves : resolves membershipTable membershipColumns.
Proof. repeat constructor. Qed.

Lemma emptyTable_resolves : resolves emptyTable [].
Proof. constructor. Qed.

Lemma usersTable_flags_agree :
  Forall2 (fun n col => IsPrimaryKey col
                        = bool_decide (n ∈ Table.PrimaryKeys usersTable))
          (Table.ColumnsSeq usersTable) usersColumns.
Proof. repeat constructor. Qed.

Lemma misflaggedTable_resolves : resolves misflaggedTable misflaggedColumns.
Proof. repeat constructor. Qed.

Lemma primary_key_clause_by_key_count_witness :
  (length (Table.PrimaryKeys usersTable) = 1%nat
   /\ CreateTableSql mysqlBase usersTable [] (str "InnoDB") [] =
      Ok (str "CREATE TABLE IF NOT EXISTS `users` (`id` INT PRIMARY KEY NOT NULL, `name` VARCHAR(255) NULL) ENGINE=InnoDB DEFAULT CHARSET utf8;"))
  /\ ((2 <= length (Table.PrimaryKeys membershipTable))%nat
      /\ CreateTableSql ansiBase membershipTable [] (str "InnoDB") [] =
         Ok (str "CREATE TABLE IF NOT EXISTS " ++ quoted ansiDialect (str "membership")
             ++ str " (" ++ quoted ansiDialect (str "user_id") ++ str " INT NOT NULL, "
             ++ quoted ansiDialect (str "group_id") ++ str " INT NOT NULL, PRIMARY KEY ( "
             ++ quoted ansiDialect (str "user_id") ++ str ","
             ++ quoted ansiDialect (str "group_id") ++ str " ));"))
  /\ (Forall2 (fun n col => IsPrimaryKey col
                            = bool_decide (n ∈ Table.PrimaryKeys usersTable))
              (Table.ColumnsSeq usersTable) usersColumns
      /\ CreateTableSql mysqlBase usersTable [] (str "InnoDB") [] =
         Ok (opening mysqlDialect (effectiveName usersTable [])
               (zip_with (columnDefByName mysqlDialect
                            (Table.PrimaryKeys usersTable))
                         (Table.ColumnsSeq usersTable) usersColumns)
               (Table.PrimaryKeys usersTable)
             ++ columnList
                  (zip_with (columnDefByName mysqlDialect
                               (Table.PrimaryKeys usersTable))
                            (Table.ColumnsSeq usersTable) usersColumns)
             ++ str ")" ++ engineClause mysqlDialect (str "InnoDB")
             ++ charsetClause mysqlDialect sampleUri [] ++ str ";")).
Proof.
  split; [|split]; (split; [first [simpl; lia | exact usersTable_flags_agree]|]).
  - exact (proj1 (primary_key_clause_by_key_count mysqlBase mysqlDialect
                    sampleUri usersTable usersColumns [] (str "InnoDB") []
                    eq_refl eq_refl usersTable_resolves) eq_refl).
  - exact (proj1 (proj2 (primary_key_clause_by_key_count ansiBase ansiDialect
                    sampleUri membershipTable membershipColumns []
                    (str "InnoDB") [] eq_refl eq_refl
                    membershipTable_resolves)) (le_n 2)).
  - exact (proj2 (proj2 (primary_key_clause_by_key_count mysqlBase
                    mysqlDialect sampleUri usersTable usersColumns []
                    (str "InnoDB") [] eq_refl eq_refl usersTable_resolves))
                 eq_refl usersTable_flags_agree).
Defined.

(** The inline form goes to the flagged column, also when the single
    primary-key name names another one: in [misflaggedTable] the list names
    [id], and it is [name] that is rendered with [PRIMARY KEY]. *)
Lemma inline_form_follows_flag_not_key_name :
  Table.PrimaryKeys misflaggedTable = [str "id"]
  /\ resolves misflaggedTable misflaggedColumns
  /\ CreateTableSql mysqlBase misflaggedTable [] [] [] =
     Ok (str "CREATE TABLE IF NOT EXISTS `users` (`id` INT NULL, `name` VARCHAR(255) PRIMARY KEY NOT NULL) DEFAULT CHARSET utf8;")
  /\ zip_with (columnDefByName mysqlDialect (Table.PrimaryKeys misflaggedTable))
       (Table.ColumnsSeq misflaggedTable) misflaggedColumns
     = [str "`id` INT NULL "; str "`name` VARCHAR(255) NOT NULL "]
  /\ CreateTableSql mysqlBase misflaggedTable [] [] [] <>
     Ok (opening mysqlDialect (effectiveName misflaggedTable [])
           (zip_with (columnDefByName mysqlDialect
                        (Table.PrimaryKeys misflaggedTable))
                     (Table.ColumnsSeq misflaggedTable) misflaggedColumns)
           (Table.PrimaryKeys misflaggedTable)
         ++ columnList
              (zip_with (columnDefByName mysqlDialect
                           (Table.PrimaryKeys misflaggedTable))
                        (Table.ColumnsSeq misflaggedTable) misflaggedColumns)
         ++ str ")" ++ engineClause mysqlDialect []
         ++ charsetClause mysqlDialect sampleUri [] ++ str ";").
Proof.
  split; [reflexivity|]. split; [exact misflaggedTable_resolves|].
  split; [vm_compute; reflexivity|]. split; [vm_compute; reflexivity|].
  intros E. vm_compute in E. discriminate E.
Qed.

Lemma create_index_keyword_and_name_witness :
  dialect mysqlBase = Some mysqlDialect
  /\ exists s,
       CreateIndexSql 2 mysqlBase (str "users") uniqueIndex = Ok s
       /\ (str "CREATE UNIQUE INDEX " `prefix_of` s
           <-> Index.Type_ uniqueIndex = 2)
       /\ (str "CREATE INDEX " `prefix_of` s <-> Index.Type_ uniqueIndex <> 2)
       /\ (Index.Type_ uniqueIndex = 2 ->
           s = str "CREATE UNIQUE INDEX `UQE_users_name` ON `users` (`name`,`id`);")
       /\ (Index.Type_ uniqueIndex <> 2 ->
           s = str "CREATE INDEX `IDX_users_name` ON `users` (`name`,`id`);").
Proof.
  split; [reflexivity|].
  exact (create_index_keyword_and_name 2 mysqlBase mysqlDialect (str "users")
           uniqueIndex eq_refl).
Defined.

Lemma engine_and_charset_clauses_witness :
  dialect mysqlBase = Some mysqlDialect
  /\ Dialect.URI mysqlDialect = Some sampleUri
  /\ resolves usersTable usersColumns
  /\ exists body, forall storeEngine charset,
       exists engine cs,
         CreateTableSql mysqlBase usersTable [] storeEngine charset =
         Ok (body ++ engine ++ cs ++ str ";")
         /\ engine = engineClause mysqlDialect storeEngine
         /\ cs = charsetClause mysqlDialect sampleUri charset
         /\ (engine = str " ENGINE=" ++ storeEngine
             /\ true = true /\ storeEngine <> []
             \/ engine = [] /\ ~ (true = true /\ storeEngine <> []))
         /\ (cs = str " DEFAULT CHARSET "
                  ++ (match charset with [] => str "utf8" | _ => charset end)
             /\ true = true
             /\ (charset <> [] \/ charset = [] /\ str "utf8" <> [])
             \/ cs = []
                /\ ~ (true = true
                      /\ (charset <> [] \/ charset = [] /\ str "utf8" <> []))).
Proof.
  split; [reflexivity|]. split; [reflexivity|].
  split; [exact usersTable_resolves|].
  exact (engine_and_charset_clauses mysqlBase mysqlDialect sampleUri
           usersTable usersColumns [] eq_refl eq_refl usersTable_resolves).
Defined.

Lemma clause_order_witness :
  Table.ColumnsSeq usersTable <> []
  /\ CreateTableSql mysqlBase usersTable (str "people") (str "InnoDB")
       (str "latin1") =
     Ok (createTableLayout mysqlDialect sampleUri
           (effectiveName usersTable (str "people"))
           (map (columnDef mysqlDialect (Table.PrimaryKeys usersTable))
                usersColumns)
           (Table.PrimaryKeys usersTable) (str "InnoDB") (str "latin1"))
  /\ createTableLayout mysqlDialect sampleUri
       (effectiveName usersTable (str "people"))
       (map (columnDef mysqlDialect (Table.PrimaryKeys usersTable))
            usersColumns)
       (Table.PrimaryKeys usersTable) (str "InnoDB") (str "latin1") =
     str "CREATE TABLE IF NOT EXISTS `people` (`id` INT PRIMARY KEY NOT NULL, `name` VARCHAR(255) NULL) ENGINE=InnoDB DEFAULT CHARSET latin1;".
Proof.
  assert (Table.ColumnsSeq usersTable <> []) as Hne by discriminate.
  split; [exact Hne|]. split; [|vm_compute; reflexivity].
  exact (clause_order mysqlBase mysqlDialect sampleUri usersTable usersColumns
           (str "people") (str "InnoDB") (str "latin1") eq_refl eq_refl
           usersTable_resolves (or_introl Hne)).
Defined.

(** The layout does not describe the statement of a table without columns
    and without a composite key: the end of the header is cut off. *)
Lemma clause_order_fails_without_columns :
  dialect mysqlBase = Some mysqlDialect
  /\ Dialect.URI mysqlDialect = Some sampleUri
  /\ resolves emptyTable []
  /\ CreateTableSql mysqlBase emptyTable [] [] [] =
     Ok (str "CREATE TABLE IF NOT EXISTS `t`) DEFAULT CHARSET utf8;")
  /\ createTableLayout mysqlDialect sampleUri (effectiveName emptyTable [])
       (map (columnDef mysqlDialect (Table.PrimaryKeys emptyTable)) [])
       (Table.PrimaryKeys emptyTable) [] [] =
     str "CREATE TABLE IF NOT EXISTS `t` () DEFAULT CHARSET utf8;"
  /\ CreateTableSql mysqlBase emptyTable [] [] [] <>
     Ok (createTableLayout mysqlDialect sampleUri (effectiveName emptyTable [])
           (map (columnDef mysqlDialect (Table.PrimaryKeys emptyTable)) [])
           (Table.PrimaryKeys emptyTable) [] [])
  /\ ~ (header mysqlDialect (str "t")
        `prefix_of` str "CREATE TABLE IF NOT EXISTS `t`) DEFAULT CHARSET utf8;").
Proof.
  split; [reflexivity|]. split; [reflexivity|].
  split; [exact emptyTable_resolves|].
  split; [reflexivity|]. split; [reflexivity|].
  split; [discriminate|].
  intros [k Hk]. discriminate.
Qed.

Lemma statements_and_terminator_witness :
  dialect mysqlBase = Some mysqlDialect
  /\ Dialect.URI mysqlDialect = Some sampleUri
  /\ resolves usersTable usersColumns
  /\ (exists body,
        CreateTableSql mysqlBase usersTable [] (str "InnoDB") []
        = Ok (body ++ str ";")
        /\ (clean (Dialect.QuoteStr mysqlDialect) ->
            clean (effectiveName usersTable []) ->
            Forall clean (Table.PrimaryKeys usersTable) ->
            Forall (fun col => clean (Column_String col mysqlDialect)
                               /\ clean (Column_StringNoPk col mysqlDialect))
                   usersColumns ->
            clean (str "InnoDB") -> clean [] ->
            clean (Uri.Charset sampleUri) -> clean body))
  /\ (exists body,
        CreateIndexSql 2 mysqlBase [] uniqueIndex = Ok (body ++ str ";")
        /\ (clean (Dialect.QuoteStr mysqlDialect) -> clean [] ->
            clean (Index.Name uniqueIndex) ->
            Forall clean (Index.Cols uniqueIndex) -> clean body))
  /\ DropTableSql mysqlBase [] = str "DROP TABLE IF EXISTS `" ++ [] ++ str "`"
  /\ last (DropTableSql mysqlBase []) = Some "`"%char
  /\ (clean [] -> clean (DropTableSql mysqlBase [])).
Proof.
  split; [reflexivity|]. split; [reflexivity|].
  split; [exact usersTable_resolves|].
  exact (statements_and_terminator 2 mysqlBase mysqlDialect sampleUri
           usersTable usersColumns [] (str "InnoDB") [] uniqueIndex
           eq_refl eq_refl usersTable_resolves).
Defined.

(** [DropTableSql] returns a statement that does not end with [;]. *)
Lemma DropTableSql_not_terminated :
  DropTableSql mysqlBase (str "orders") = str "DROP TABLE IF EXISTS `orders`"
  /\ last (DropTableSql mysqlBase (str "orders")) = Some "`"%char
  /\ last (DropTableSql mysqlBase (str "orders")) <> Some ";"%char.
Proof. repeat split. discriminate. Qed.

Lemma registry_contract_witness :
  (str "sqlite3"
   ∉ ([(str "mysql", mysqlDialect); (str "postgres", ansiDialect)].*1))
  /\ exists dialects,
       registerAll [(str "mysql", mysqlDialect); (str "postgres", ansiDialect)]
                   dialects0 = Ok dialects
       /\ QueryDialect (str "sqlite3") dialects = None.
Proof.
  assert (str "sqlite3"
          ∉ ([(str "mysql", mysqlDialect); (str "postgres", ansiDialect)].*1))
    as Hfresh.
  { cbn [fmap list_fmap fst]. rewrite !not_elem_of_cons.
    split; [discriminate|]. split; [discriminate|]. apply not_elem_of_nil. }
  split; [exact Hfresh|].
  exact (proj2 (proj2 registry_contract) _ _ Hfresh).
Defined.

Lemma synthesis_is_deterministic_witness :
  dialect mysqlBase = dialect detachedBase
  /\ DropTableSql mysqlBase (str "users")
     = DropTableSql detachedBase (str "users")
  /\ CreateIndexSql 2 mysqlBase (str "users") plainIndex
     = CreateIndexSql 2 detachedBase
         (str "users") plainIndex
  /\ CreateTableSql mysqlBase usersTable (str "users") (str "InnoDB") []
     = CreateTableSql detachedBase usersTable
         (str "users") (str "InnoDB") [].
Proof.
  split; [reflexivity|].
  exact (synthesis_is_deterministic 2 mysqlBase
           detachedBase usersTable
           (str "users") (str "InnoDB") [] plainIndex eq_refl).
Defined.

Lemma zero_columns_returns_witness :
  Table.ColumnsSeq emptyTable = []
  /\ (length (Table.PrimaryKeys emptyTable) < 2)%nat
  /\ len (header mysqlDialect (str "t")) - 2 = 30
  /\ sliceTo (header mysqlDialect (str "t"))
       (len (header mysqlDialect (str "t")) - 2)
     = Ok (str "CREATE TABLE IF NOT EXISTS `t`")
  /\ CreateTableSql mysqlBase emptyTable [] (str "InnoDB") []
     = Ok (str "CREATE TABLE IF NOT EXISTS `t`) ENGINE=InnoDB DEFAULT CHARSET utf8;")
  /\ (forall (b' : Base unit) tableName' storeEngine' charset',
        CreateTableSql b' emptyTable tableName' storeEngine' charset'
        <> Panic SliceOutOfRange).
Proof.
  split; [reflexivity|]. split; [simpl; lia|]. split; [reflexivity|].
  exact (zero_columns_returns mysqlBase mysqlDialect sampleUri emptyTable []
           (str "InnoDB") [] eq_refl eq_refl eq_refl
           (le_n_S 0 1 (le_S 0 0 (le_n 0)))).
Defined.

(** After [Init] with a nil URI, [DBType] does not return. *)
Lemma DBType_panics_after_Init_with_nil_uri :
  snd (Init emptyBase None None None (str "mysql") (str "root@/test")) = None
  /\ URI (fst (Init emptyBase None None None (str "mysql") (str "root@/test")))
     = None
  /\ DBType (fst (Init emptyBase None None None (str "mysql")
                    (str "root@/test")))
     = Panic NilDereference
  /\ ~ (exists v,
          DBType (fst (Init emptyBase None None None (str "mysql")
                         (str "root@/test"))) = Ok v).
Proof. repeat split. intros [v Hv]. discriminate. Qed.

(* ===================================================================== *)
(** ** Further properties of the registry *)
(* ===================================================================== *)

(** A start-up sequence is a left fold of insertions. *)
Lemma registerAll_foldl calls : forall dialects,
  registerAll calls dialects =
  Ok (foldl (fun m kd => <[kd.1 := kd.2]> m) dialects calls).
Proof.
  induction calls as [|[dbName d] calls IH]; intros dialects; [done|].
  cbn [registerAll RegisterDialect mbind result_bind]. by rewrite IH.
Qed.

Lemma foldl_insert_lookup_other (calls : list (gostring * Dialect.t)) :
  forall (dialects : gmap gostring Dialect.t) X,
  X ∉ calls.*1 ->
  foldl (fun m kd => <[kd.1 := kd.2]> m) dialects calls !! X = dialects !! X.
Proof.
  induction calls as [|[dbName d] calls IH]; intros dialects X HX; [done|].
  rewrite fmap_cons, not_elem_of_cons in HX. destruct HX as [Hne HX].
  cbn [foldl]. rewrite IH by done. by apply lookup_insert_ne.
Qed.

(** X1. Registering under one identifier changes the lookup of no other
    identifier. *)
Theorem RegisterDialect_keeps_other_identifiers X Y d dialects :
  X <> Y ->
  exists dialects',
    RegisterDialect X (Some d) dialects = Ok dialects'
    /\ QueryDialect Y dialects' = QueryDialect Y dialects.
Proof.
  intros Hne. eexists. split; [reflexivity|].
  unfold QueryDialect. by apply lookup_insert_ne.
Qed.

(** X2. A second registration under the same identifier leaves no trace of
    the first: the registry is the one that the second registration alone
    produces. *)
Theorem RegisterDialect_overwrites X d1 d2 dialects :
  (dialects1 ← RegisterDialect X (Some d1) dialects;
   RegisterDialect X (Some d2) dialects1)
  = RegisterDialect X (Some d2) dialects.
Proof.
  cbn [RegisterDialect mbind result_bind]. by rewrite insert_insert_eq.
Qed.

(** X3. Registrations under different identifiers commute. *)
Theorem RegisterDialect_commutes X Y d1 d2 dialects :
  X <> Y ->
  (dialects1 ← RegisterDialect X (Some d1) dialects;
   RegisterDialect Y (Some d2) dialects1)
  = (dialects1 ← RegisterDialect Y (Some d2) dialects;
     RegisterDialect X (Some d1) dialects1).
Proof.
  intros Hne. cbn [RegisterDialect mbind result_bind].
  by rewrite insert_insert_ne.
Qed.

(** X4. In any sequence of registrations the last one under an identifier
    wins, whatever was registered before it and whatever is registered
    under other identifiers after it. *)
Theorem registerAll_last_wins calls1 X d calls2 dialects :
  X ∉ calls2.*1 ->
  exists dialects',
    registerAll (calls1 ++ (X, d) :: calls2) dialects = Ok dialects'
    /\ QueryDialect X dialects' = Some d.
Proof.
  intros HX. rewrite registerAll_foldl. eexists. split; [reflexivity|].
  unfold QueryDialect. rewrite foldl_app. cbn [foldl].
  rewrite foldl_insert_lookup_other by done. apply lookup_insert_eq.
Qed.

(** X5. A sequence of registrations loses nothing and invents nothing: an
    identifier is found afterwards exactly when it was found before or is
    named by one of the registrations. *)
Theorem registerAll_found_iff calls : forall dialects,
  exists dialects',
    registerAll calls dialects = Ok dialects'
    /\ forall X,
         is_Some (QueryDialect X dialects')
         <-> X ∈ calls.*1 \/ is_Some (QueryDialect X dialects).
Proof.
  induction calls as [|[dbName d] calls IH]; intros dialects.
  { exists dialects. split; [done|]. intros X. rewrite fmap_nil.
    split; [by right|]. intros [HX|HX]; [by apply elem_of_nil in HX | done]. }
  cbn [registerAll RegisterDialect mbind result_bind].
  destruct (IH (<[dbName := d]> dialects)) as [dialects' [-> Hiff]].
  exists dialects'. split; [done|]. intros X. rewrite Hiff, fmap_cons.
  unfold QueryDialect. rewrite elem_of_cons. cbn [fst].
  destruct (decide (dbName = X)) as [->|Hne].
  - rewrite lookup_insert_eq. split; [by left; left | by right].
  - rewrite lookup_insert_ne by done. split.
    + intros [?|?]; [left; by right | by right].
    + intros [[?|?]|?]; [congruence | by left | by right].
Qed.

(* ===================================================================== *)
(** ** Further properties of quoting, [DropTableSql] and
       [CreateIndexSql] *)
(* ===================================================================== *)

Section MoreStatements.

Context {DBConn Column : Type} `{ColumnOps Column}.
Variable UniqueType : Z.

Implicit Types (b : Base DBConn) (table : Table.t Column) (d : Dialect.t).

(** X6. [Quote] fails exactly when no dialect is bound, and then with a nil
    dereference; with a dialect bound it returns the identifier between two
    copies of the quote string (no escaping, no truncation), and different
    identifiers get different results. *)
Theorem Quote_returns_and_is_injective b :
  (forall c, Quote b c = Panic NilDereference <-> dialect b = None)
  /\ (forall d c,
        dialect b = Some d ->
        exists s,
          Quote b c = Ok s
          /\ s = Dialect.QuoteStr d ++ c ++ Dialect.QuoteStr d
          /\ len s = len c + 2 * len (Dialect.QuoteStr d))
  /\ (forall c1 c2 s, Quote b c1 = Ok s -> Quote b c2 = Ok s -> c1 = c2).
Proof.
  unfold Quote. destruct (dialect b) as [d|];
    cbn [deref mbind result_bind]; repeat split; try done.
  - intros d' c [= <-]. eexists. split; [reflexivity|]. split; [done|].
    unfold len. rewrite !length_app. lia.
  - intros c1 c2 s [= <-] [= E]. apply app_inv_head in E.
    by apply app_inv_tail in E.
Qed.

(** X7. The table name can be read back from the statement of
    [DropTableSql]: it is what remains after the 22 characters of
    [DROP TABLE IF EXISTS `] and before the last character.  Hence two
    calls return the same statement only for the same name, whatever the
    adapter states. *)
Theorem DropTableSql_name_recoverable (b1 b2 : Base DBConn) tableName :
  drop 22 (removelast (DropTableSql b1 tableName)) = tableName
  /\ len (DropTableSql b1 tableName) = len tableName + 23
  /\ (forall tableName',
        DropTableSql b1 tableName = DropTableSql b2 tableName' ->
        tableName = tableName').
Proof.
  unfold DropTableSql. change (str "`") with ["`"%char].
  split; [|split].
  - rewrite app_assoc, removelast_last. by rewrite drop_app_length'.
  - unfold len. rewrite !length_app.
    change (length (str "DROP TABLE IF EXISTS `")) with 22%nat.
    simpl length. lia.
  - intros tableName' E. apply app_inv_head in E. by apply app_inv_tail in E.
Qed.

(** X8. [CreateIndexSql] returns a statement exactly when a dialect is
    bound to the adapter; otherwise it panics with a nil dereference.  No
    table name, index name, index type or column list makes it fail. *)
Theorem CreateIndexSql_returns_iff b tableName index :
  ((exists s, CreateIndexSql UniqueType b tableName index = Ok s)
   <-> dialect b <> None)
  /\ (dialect b = None ->
      CreateIndexSql UniqueType b tableName index = Panic NilDereference).
Proof.
  destruct (dialect b) as [d|] eqn:Hd.
  - split; [|done]. split; [done|]. intros _. eexists.
    by apply CreateIndexSql_closed.
  - assert (CreateIndexSql UniqueType b tableName index
            = Panic NilDereference) as E.
    { unfold CreateIndexSql, Quote. rewrite Hd.
      by destruct (Index.Type_ index =? UniqueType). }
    split; [|done]. rewrite E. split; [by intros [s Hs] | done].
Qed.

(** X9. The columns of an index are quoted one by one and separated by
    commas, in their order; an index without columns gets an empty quoted
    identifier between the parentheses. *)
Theorem CreateIndexSql_column_list b d tableName index :
  dialect b = Some d ->
  exists front,
    front = str "CREATE"
            ++ (if Index.Type_ index =? UniqueType then str " UNIQUE" else [])
            ++ str " INDEX "
            ++ quoted d ((if Index.Type_ index =? UniqueType
                          then str "UQE_" else str "IDX_")
                         ++ tableName ++ str "_" ++ Index.Name index)
            ++ str " ON " ++ quoted d tableName ++ str " ("
    /\ CreateIndexSql UniqueType b tableName index =
       Ok (front
           ++ match Index.Cols index with
              | [] => Dialect.QuoteStr d ++ Dialect.QuoteStr d
              | cols => Join (map (quoted d) cols) (str ",")
              end
           ++ str ");").
Proof.
  intros Hd. eexists. split; [reflexivity|].
  rewrite (CreateIndexSql_closed UniqueType b d) by done.
  rewrite <- !app_assoc. do 7 f_equal.
  destruct (Index.Cols index) as [|c cols]; [done|].
  by rewrite Join_nonempty_quoted.
Qed.

(** X10. The synthesized index name does not keep the table name and the
    index name apart: the index [n] of the table [t_s] and the index [s_n]
    of the table [t] get the same name. *)
Theorem CreateIndexSql_name_collision b d t s n ty cols :
  dialect b = Some d ->
  let keyword := str "CREATE" ++ (if ty =? UniqueType then str " UNIQUE" else [])
                 ++ str " INDEX " in
  let idxName := (if ty =? UniqueType then str "UQE_" else str "IDX_")
                 ++ t ++ str "_" ++ s ++ str "_" ++ n in
  let columns := str " (" ++ quoted d (Join cols (quoted d (str ",")))
                 ++ str ");" in
  CreateIndexSql UniqueType b (t ++ str "_" ++ s) (Index.Build n ty cols)
  = Ok (keyword ++ quoted d idxName ++ str " ON "
        ++ quoted d (t ++ str "_" ++ s) ++ columns)
  /\ CreateIndexSql UniqueType b t (Index.Build (s ++ str "_" ++ n) ty cols)
     = Ok (keyword ++ quoted d idxName ++ str " ON " ++ quoted d t ++ columns).
Proof.
  intros Hd keyword idxName columns.
  rewrite !(CreateIndexSql_closed UniqueType b d) by done.
  cbn [Index.Type_ Index.Name Index.Cols]. unfold keyword, idxName, columns.
  split; by rewrite <- !app_assoc.
Qed.

(** X11. After [Init], the index statement is decided by the dialect that
    was passed to [Init]: the earlier state of the adapter, the
    connection, the URI, the driver name and the data-source name play no
    role, and with a nil dialect the call panics. *)
Theorem Init_then_CreateIndexSql b (db0 : option DBConn) dialect0 uri
    drivername dataSourceName0 tableName index :
  CreateIndexSql UniqueType
    (fst (Init b db0 dialect0 uri drivername dataSourceName0))
    tableName index
  = match dialect0 with
    | Some d =>
        Ok (str "CREATE"
            ++ (if Index.Type_ index =? UniqueType then str " UNIQUE" else [])
            ++ str " INDEX "
            ++ quoted d ((if Index.Type_ index =? UniqueType
                          then str "UQE_" else str "IDX_")
                         ++ tableName ++ str "_" ++ Index.Name index)
            ++ str " ON " ++ quoted d tableName ++ str " ("
            ++ quoted d (Join (Index.Cols index) (quoted d (str ",")))
            ++ str ");")
    | None => Panic NilDereference
    end.
Proof.
  destruct dialect0 as [d|].
  - by apply CreateIndexSql_closed.
  - unfold CreateIndexSql, Quote. cbn [Init fst dialect].
    by destruct (Index.Type_ index =? UniqueType).
Qed.

End MoreStatements.

(* ===================================================================== *)
(** ** Further properties of [CreateTableSql] *)
(* ===================================================================== *)

Section MoreCreateTable.

Context {DBConn Column : Type} `{ColumnOps Column}.

Implicit Types (b : Base DBConn) (table : Table.t Column) (d : Dialect.t).

(** The loop returns only when every name it meets resolves. *)
Lemma columnsLoop_Ok_inv d table pks names : forall sql s,
  columnsLoop d table pks names sql = Ok s ->
  Forall (fun n => is_Some (Table.GetColumn table n)) names.
Proof.
  induction names as [|n names IH]; intros sql s; [constructor|].
  cbn [columnsLoop].
  destruct (Table.GetColumn table n) as [col|] eqn:Hn; [|done].
  cbn [deref mbind result_bind]. intros Hs.
  constructor; [by rewrite Hn|]. by eapply IH.
Qed.

Lemma resolvable_resolves table (names : list gostring) :
  Forall (fun n => is_Some (Table.GetColumn table n)) names ->
  exists cols,
    Forall2 (fun n col => Table.GetColumn table n = Some col) names cols.
Proof.
  induction 1 as [|n names [col Hn] _ [cols IH]]; [by exists []|].
  exists (col :: cols). by constructor.
Qed.

(** The loop consults the lookup at the names of the sequence only. *)
Lemma columnsLoop_ext d table1 table2 pks names : forall sql,
  (forall n, n ∈ names ->
             Table.GetColumn table1 n = Table.GetColumn table2 n) ->
  columnsLoop d table1 pks names sql = columnsLoop d table2 pks names sql.
Proof.
  induction names as [|n names IH]; intros sql Hext; [done|].
  cbn [columnsLoop]. rewrite <- (Hext n) by (by left).
  destruct (Table.GetColumn table1 n) as [col|]; [|done].
  cbn [deref mbind result_bind]. apply IH.
  intros n' Hn'. apply Hext. by right.
Qed.

(** The last statements return unless the URI is needed and is nil. *)
Lemma closeStatement_Ok_iff d sql storeEngine charset :
  (exists s, closeStatement d sql storeEngine charset = Ok s)
  <-> (Dialect.SupportCharset d = true -> charset = [] ->
       Dialect.URI d <> None).
Proof.
  unfold closeStatement. rewrite len_eqb_0.
  destruct (Dialect.SupportCharset d), charset as [|c0 c],
    (Dialect.URI d) as [u|];
    cbn [deref mbind result_bind isEmpty]; split;
    try (intros _; eexists; reflexivity); try done.
  - intros [s Hs]. done.
  - intros Hu. by destruct Hu.
Qed.

(** Two calls that differ in the engine and charset arguments only agree
    as soon as their last statements do. *)
Lemma CreateTableSql_close_ext b table tableName e1 c1 e2 c2 :
  (forall d sql, dialect b = Some d ->
                 closeStatement d sql e1 c1 = closeStatement d sql e2 c2) ->
  CreateTableSql b table tableName e1 c1
  = CreateTableSql b table tableName e2 c2.
Proof.
  intros Hclose. rewrite !CreateTableSql_steps. unfold Quote.
  destruct (dialect b) as [d|] eqn:Hd; [|done].
  cbn [deref mbind result_bind].
  destruct (columnsLoop _ _ _ _ _) as [sql|]; [|done].
  cbn [mbind result_bind].
  destruct (appendCompositeKey _ _ _) as [sql'|]; [|done].
  cbn [mbind result_bind].
  destruct (sliceTo _ _) as [sql''|]; [|done].
  cbn [mbind result_bind]. by apply Hclose.
Qed.

(** X12. [CreateTableSql] returns a statement exactly when a dialect is
    bound, every name of the column sequence resolves, and the URI is not
    nil in case it is consulted (charset supported and no charset passed).
    In every other case it panics with a nil dereference. *)
Theorem CreateTableSql_returns_iff b table tableName storeEngine charset :
  ((exists s, CreateTableSql b table tableName storeEngine charset = Ok s)
   <-> exists d,
         dialect b = Some d
         /\ Forall (fun n => is_Some (Table.GetColumn table n))
                   (Table.ColumnsSeq table)
         /\ (Dialect.SupportCharset d = true -> charset = [] ->
             Dialect.URI d <> None))
  /\ (forall p,
        CreateTableSql b table tableName storeEngine charset = Panic p ->
        p = NilDereference).
Proof.
  split; [|intros p; apply CreateTableSql_panic_kind].
  rewrite CreateTableSql_steps.
  set (name := if isEmpty tableName then Table.Name table else tableName).
  destruct (dialect b) as [d|] eqn:Hd.
  2:{ unfold Quote. rewrite Hd. cbn [deref mbind result_bind].
      split; [by intros [s Hs] | by intros [d [Hd' _]]]. }
  rewrite (Quote_bound b d name Hd). cbn [deref mbind result_bind].
  fold (header d name).
  destruct (columnsLoop _ _ _ _ _) as [sql|p] eqn:Hloop.
  2:{ cbn [mbind result_bind]. split; [by intros [s Hs]|].
      intros [d' [_ [Hres _]]].
      destruct (resolvable_resolves table _ Hres) as [cols Hcols].
      rewrite (columnsLoop_closed d table _ name _ cols Hcols) in Hloop.
      done. }
  cbn [mbind result_bind].
  rewrite (appendCompositeKey_closed b d _ _ Hd). cbn [mbind result_bind].
  pose proof (columnsLoop_Ok_inv _ _ _ _ _ _ Hloop) as Hres.
  apply columnsLoop_length in Hloop.
  2:{ unfold header. rewrite !length_app.
      change (length (str " (")) with 2%nat. lia. }
  match goal with
  | |- context [sliceTo ?s _] =>
      destruct (sliceTo_long s) as [s' ->]; [rewrite length_app; lia|]
  end.
  cbn [mbind result_bind]. rewrite closeStatement_Ok_iff. split.
  - intros Hu. exists d. by repeat split.
  - intros [d' [[= <-] [_ Hu]]]. done.
Qed.

(** X13. The defaults of the arguments: an empty table name stands for the
    table's own name, and an empty charset for the charset of the
    dialect's URI; passing the default explicitly gives the same result. *)
Theorem CreateTableSql_defaults b d u table tableName storeEngine charset :
  dialect b = Some d -> Dialect.URI d = Some u ->
  CreateTableSql b table [] storeEngine charset
  = CreateTableSql b table (Table.Name table) storeEngine charset
  /\ CreateTableSql b table tableName storeEngine []
     = CreateTableSql b table tableName storeEngine (Uri.Charset u).
Proof.
  intros Hd Hu. split.
  - unfold CreateTableSql. cbn [isEmpty]. by destruct (Table.Name table).
  - apply CreateTableSql_close_ext. intros d' sql Hd'.
    assert (d' = d) as -> by congruence.
    rewrite !(closeStatement_closed d u) by done.
    do 4 f_equal. unfold charsetClause.
    by destruct (Dialect.SupportCharset d), (Uri.Charset u).
Qed.

(** The loop reads the dialect through the two renderers only. *)
Lemma columnsLoop_dialect_ext d1 d2 table pks names : forall sql,
  (forall col, Column_String col d1 = Column_String col d2
               /\ Column_StringNoPk col d1 = Column_StringNoPk col d2) ->
  columnsLoop d1 table pks names sql = columnsLoop d2 table pks names sql.
Proof.
  induction names as [|n names IH]; intros sql Hext; [done|].
  cbn [columnsLoop]. destruct (Table.GetColumn table n) as [col|]; [|done].
  cbn [deref mbind result_bind]. destruct (Hext col) as [-> ->].
  by apply IH.
Qed.

(** X14. For a dialect without engine support the engine argument is
    ignored, and for a dialect without charset support so are the charset
    argument and the URI: an adapter whose dialect has another URI, or
    none, and is otherwise the same (quote string, flags, text of the
    column definitions) returns the same result, whatever charset is
    passed to it. *)
Theorem CreateTableSql_unsupported_clauses
    b d table tableName storeEngine charset :
  dialect b = Some d ->
  (Dialect.SupportEngine d = false ->
   CreateTableSql b table tableName storeEngine charset
   = CreateTableSql b table tableName [] charset)
  /\ (Dialect.SupportCharset d = false ->
      CreateTableSql b table tableName storeEngine charset
      = CreateTableSql b table tableName storeEngine [])
  /\ (Dialect.SupportCharset d = false ->
      forall (b' : Base DBConn) d' charset',
        dialect b' = Some d' ->
        Dialect.QuoteStr d' = Dialect.QuoteStr d ->
        Dialect.SupportEngine d' = Dialect.SupportEngine d ->
        Dialect.SupportCharset d' = false ->
        (forall col, Column_String col d' = Column_String col d
                     /\ Column_StringNoPk col d' = Column_StringNoPk col d) ->
        CreateTableSql b' table tableName storeEngine charset'
        = CreateTableSql b table tableName storeEngine charset).
Proof.
  intros Hd. split; [|split].
  1,2: intros Hno; apply CreateTableSql_close_ext;
    intros d0 sql Hd0; assert (d0 = d) as -> by congruence;
    unfold closeStatement; by rewrite Hno.
  intros Hno b' d' charset' Hd' Hq He Hno' Hrender.
  assert (forall c, quoted d' c = quoted d c) as Hquoted
    by (intros c; unfold quoted; by rewrite Hq).
  rewrite !CreateTableSql_steps.
  rewrite (Quote_bound b' d' _ Hd'), (Quote_bound b d _ Hd), Hd', Hd.
  cbn [deref mbind result_bind]. rewrite Hquoted.
  rewrite (columnsLoop_dialect_ext d' d) by done.
  destruct (columnsLoop _ _ _ _ _) as [sql|]; [|done].
  cbn [mbind result_bind].
  rewrite (appendCompositeKey_closed b' d' _ _ Hd'),
    (appendCompositeKey_closed b d _ _ Hd).
  assert (primaryKeyClause d' (Table.PrimaryKeys table)
          = primaryKeyClause d (Table.PrimaryKeys table)) as ->.
  { unfold primaryKeyClause. do 3 f_equal. by apply map_ext. }
  cbn [mbind result_bind].
  destruct (sliceTo _ _) as [sql'|]; [|done].
  cbn [mbind result_bind]. unfold closeStatement. by rewrite He, Hno, Hno'.
Qed.

(** X15. Of the lookup, [CreateTableSql] reads the entries of the names in
    the column sequence only, and the table's own name only when no name
    is passed: primary-key names are never looked up, and an entry that
    the sequence does not name has no influence. *)
Theorem CreateTableSql_reads_listed_columns_only
    b table1 table2 tableName storeEngine charset :
  (tableName = [] -> Table.Name table1 = Table.Name table2) ->
  Table.ColumnsSeq table1 = Table.ColumnsSeq table2 ->
  Table.PrimaryKeys table1 = Table.PrimaryKeys table2 ->
  (forall n, n ∈ Table.ColumnsSeq table1 ->
             Table.GetColumn table1 n = Table.GetColumn table2 n) ->
  CreateTableSql b table1 tableName storeEngine charset
  = CreateTableSql b table2 tableName storeEngine charset.
Proof.
  intros Hname Hseq Hpk Hext. rewrite !CreateTableSql_steps.
  assert ((if isEmpty tableName then Table.Name table1 else tableName)
          = (if isEmpty tableName then Table.Name table2 else tableName))
    as -> by (destruct tableName; [by apply Hname | done]).
  rewrite <- Hseq, <- Hpk.
  destruct (Quote b _) as [q|]; [|done]. cbn [mbind result_bind].
  destruct (deref (dialect b)) as [d|]; [|done]. cbn [mbind result_bind].
  by rewrite (columnsLoop_ext d table1 table2 _ _ _ Hext).
Qed.

(** X16. With no primary-key name, no column is rendered in the inline
    form, whatever its [IsPrimaryKey] flag, and no primary-key clause is
    written: the statement designates no primary key. *)
Theorem CreateTableSql_without_primary_keys
    b d u table cols tableName storeEngine charset :
  dialect b = Some d -> Dialect.URI d = Some u -> resolves table cols ->
  Table.PrimaryKeys table = [] ->
  let defs := map (fun col => Column_StringNoPk col d) cols in
  CreateTableSql b table tableName storeEngine charset =
  Ok (match defs with
      | [] => str "CREATE TABLE IF NOT EXISTS "
              ++ quoted d (effectiveName table tableName)
      | _ => header d (effectiveName table tableName)
      end
      ++ columnList defs ++ str ")" ++ engineClause d storeEngine
      ++ charsetClause d u charset ++ str ";").
Proof.
  intros Hd Hu Hcols Hpk defs.
  rewrite (CreateTableSql_closed b d u table cols) by done.
  rewrite Hpk. unfold compositeKey, opening. cbn [length Nat.leb].
  assert (map (columnDef d []) cols = defs) as -> by done.
  by rewrite app_nil_l.
Qed.

(** X17. Every statement that [CreateTableSql] returns, the one of a table
    without columns included, begins with [CREATE TABLE IF NOT EXISTS] and
    the quoted name, the explicit one if there is one. *)
Theorem CreateTableSql_begins_with_quoted_name
    b d u table cols tableName storeEngine charset :
  dialect b = Some d -> Dialect.URI d = Some u -> resolves table cols ->
  exists rest,
    CreateTableSql b table tableName storeEngine charset =
    Ok (str "CREATE TABLE IF NOT EXISTS "
        ++ quoted d (match tableName with
                     | [] => Table.Name table
                     | _ => tableName
                     end)
        ++ rest).
Proof.
  intros Hd Hu Hcols.
  rewrite (CreateTableSql_closed b d u table cols) by done.
  unfold opening, header, effectiveName.
  destruct (map (columnDef d (Table.PrimaryKeys table)) cols),
    (2 <=? length (Table.PrimaryKeys table))%nat; eexists;
    by rewrite <- ?app_assoc.
Qed.

End MoreCreateTable.

(* ===================================================================== *)
(** ** A blank column definition *)
(* ===================================================================== *)

(** A string that the trimming removes entirely is removed entirely also
    in front of more text, which is then trimmed in turn. *)
Lemma stripRev_blank_le n : forall x y,
  (length x <= n)%nat -> stripRev x = [] -> stripRev (x ++ y) = stripRev y.
Proof.
  induction n as [|n IH]; intros x y Hn Hx.
  { destruct x; [done | simpl in Hn; lia]. }
  destruct x as [|c1 x]; [done|].
  simpl in Hn. rewrite <- app_comm_cons. rewrite stripRev_cons in Hx.
  rewrite (stripRev_cons c1 (x ++ y)).
  destruct (space1 c1); [apply IH; [lia | done]|].
  destruct x as [|b1 x]; [done|].
  simpl in Hn. rewrite <- app_comm_cons.
  destruct (space2 b1 c1); [apply IH; [lia | done]|].
  destruct x as [|a1 x]; [done|].
  simpl in Hn. rewrite <- app_comm_cons.
  destruct (space3 a1 b1 c1); [apply IH; [lia | done]|]. done.
Qed.

Lemma trimRight_blank_after_space r :
  trimRight r = [] -> trimRight (" "%char :: r) = [].
Proof.
  unfold trimRight. intros Hr. simpl rev at 2.
  assert (stripRev (rev r) = []) as Hs.
  { apply (f_equal (@rev ascii)) in Hr. by rewrite rev_involutive in Hr. }
  by rewrite (stripRev_blank_le (length (rev r))).
Qed.

Lemma columnList_blank_last r0 defs r :
  trimRight r = [] ->
  columnList (r0 :: defs ++ [r]) = columnList (r0 :: defs) ++ str ",".
Proof.
  intros Hr. rewrite !columnList_cons, map_app, concat_app.
  cbn [map concat]. rewrite trimRight_blank_after_space by done.
  by rewrite !app_nil_r, <- app_assoc.
Qed.

Section BlankDefinition.

Context {DBConn Column : Type} `{ColumnOps Column}.

Implicit Types (b : Base DBConn) (table : Table.t Column) (d : Dialect.t).

(** X18. A last column whose definition is blank (empty or white space
    only) is not skipped: the comma that follows the column before it
    stays, without its space, so the column list ends with a dangling
    comma. *)
Theorem CreateTableSql_blank_last_definition
    b d u table col0 cols col tableName storeEngine charset :
  dialect b = Some d -> Dialect.URI d = Some u ->
  resolves table (col0 :: cols ++ [col]) ->
  trimRight (columnDef d (Table.PrimaryKeys table) col) = [] ->
  CreateTableSql b table tableName storeEngine charset =
  Ok (header d (effectiveName table tableName)
      ++ columnList (map (columnDef d (Table.PrimaryKeys table))
                         (col0 :: cols))
      ++ str ","
      ++ (if (2 <=? length (Table.PrimaryKeys table))%nat
          then str ", " ++ primaryKeyClause d (Table.PrimaryKeys table)
          else [])
      ++ str ")" ++ engineClause d storeEngine
      ++ charsetClause d u charset ++ str ";").
Proof.
  intros Hd Hu Hcols Hblank.
  rewrite (CreateTableSql_closed b d u table _ _ _ _ Hd Hu Hcols).
  cbn [map]. rewrite map_app. cbn [map].
  rewrite columnList_blank_last by done.
  unfold opening, compositeKey. by rewrite <- !app_assoc.
Qed.

End BlankDefinition.

(* ===================================================================== *)
(** ** The further properties at sample inputs *)
(* ===================================================================== *)

Lemma gapTable_resolves : resolves gapTable [str "`a` INT "; str "  "].
Proof. repeat constructor. Qed.

Lemma RegisterDialect_keeps_other_identifiers_witness :
  str "mysql" <> str "postgres"
  /\ exists dialects',
       RegisterDialect (str "mysql") (Some mysqlDialect)
         {[ str "postgres" := ansiDialect ]} = Ok dialects'
       /\ QueryDialect (str "postgres") dialects'
          = QueryDialect (str "postgres") {[ str "postgres" := ansiDialect ]}.
Proof.
  assert (str "mysql" <> str "postgres") as Hne by discriminate.
  split; [exact Hne|].
  exact (RegisterDialect_keeps_other_identifiers (str "mysql")
           (str "postgres") mysqlDialect
           {[ str "postgres" := ansiDialect ]} Hne).
Defined.

Lemma RegisterDialect_commutes_witness :
  str "mysql" <> str "postgres"
  /\ (dialects1 ← RegisterDialect (str "mysql") (Some mysqlDialect) dialects0;
      RegisterDialect (str "postgres") (Some ansiDialect) dialects1)
     = (dialects1 ← RegisterDialect (str "postgres") (Some ansiDialect)
                      dialects0;
        RegisterDialect (str "mysql") (Some mysqlDialect) dialects1).
Proof.
  assert (str "mysql" <> str "postgres") as Hne by discriminate.
  split; [exact Hne|].
  exact (RegisterDialect_commutes (str "mysql") (str "postgres") mysqlDialect
           ansiDialect dialects0 Hne).
Defined.

Lemma registerAll_last_wins_witness :
  (str "mysql" ∉ ([(str "postgres", ansiDialect)].*1))
  /\ exists dialects',
       registerAll ([(str "mysql", ansiDialect)]
                    ++ (str "mysql", mysqlDialect)
                       :: [(str "postgres", ansiDialect)]) dialects0
       = Ok dialects'
       /\ QueryDialect (str "mysql") dialects' = Some mysqlDialect.
Proof.
  assert (str "mysql" ∉ ([(str "postgres", ansiDialect)].*1)) as Hfresh.
  { cbn [fmap list_fmap fst]. rewrite not_elem_of_cons.
    split; [discriminate | apply not_elem_of_nil]. }
  split; [exact Hfresh|].
  exact (registerAll_last_wins [(str "mysql", ansiDialect)] (str "mysql")
           mysqlDialect [(str "postgres", ansiDialect)] dialects0 Hfresh).
Defined.

Lemma CreateIndexSql_column_list_witness :
  dialect mysqlBase = Some mysqlDialect
  /\ exists front,
       front = str "CREATE"
               ++ (if Index.Type_ uniqueIndex =? 2 then str " UNIQUE" else [])
               ++ str " INDEX "
               ++ quoted mysqlDialect
                    ((if Index.Type_ uniqueIndex =? 2
                      then str "UQE_" else str "IDX_")
                     ++ str "users" ++ str "_" ++ Index.Name uniqueIndex)
               ++ str " ON " ++ quoted mysqlDialect (str "users") ++ str " ("
       /\ CreateIndexSql 2 mysqlBase (str "users") uniqueIndex =
          Ok (front
              ++ match Index.Cols uniqueIndex with
                 | [] => Dialect.QuoteStr mysqlDialect
                         ++ Dialect.QuoteStr mysqlDialect
                 | cols => Join (map (quoted mysqlDialect) cols) (str ",")
                 end
              ++ str ");").
Proof.
  split; [reflexivity|].
  exact (CreateIndexSql_column_list 2 mysqlBase mysqlDialect (str "users")
           uniqueIndex eq_refl).
Defined.

Lemma CreateIndexSql_name_collision_witness :
  dialect mysqlBase = Some mysqlDialect
  /\ CreateIndexSql 2 mysqlBase (str "user" ++ str "_" ++ str "group")
       (Index.Build (str "id") 1 [str "id"])
     = Ok ((str "CREATE" ++ (if 1 =? 2 then str " UNIQUE" else [])
            ++ str " INDEX ")
           ++ quoted mysqlDialect
                ((if 1 =? 2 then str "UQE_" else str "IDX_")
                 ++ str "user" ++ str "_" ++ str "group" ++ str "_"
                 ++ str "id")
           ++ str " ON "
           ++ quoted mysqlDialect (str "user" ++ str "_" ++ str "group")
           ++ str " ("
           ++ quoted mysqlDialect
                (Join [str "id"] (quoted mysqlDialect (str ",")))
           ++ str ");")
  /\ CreateIndexSql 2 mysqlBase (str "user")
       (Index.Build (str "group" ++ str "_" ++ str "id") 1 [str "id"])
     = Ok ((str "CREATE" ++ (if 1 =? 2 then str " UNIQUE" else [])
            ++ str " INDEX ")
           ++ quoted mysqlDialect
                ((if 1 =? 2 then str "UQE_" else str "IDX_")
                 ++ str "user" ++ str "_" ++ str "group" ++ str "_"
                 ++ str "id")
           ++ str " ON " ++ quoted mysqlDialect (str "user")
           ++ str " ("
           ++ quoted mysqlDialect
                (Join [str "id"] (quoted mysqlDialect (str ",")))
           ++ str ");").
Proof.
  split; [reflexivity|].
  exact (CreateIndexSql_name_collision 2 mysqlBase mysqlDialect (str "user")
           (str "group") (str "id") 1 [str "id"] eq_refl).
Defined.

Lemma CreateTableSql_defaults_witness :
  dialect mysqlBase = Some mysqlDialect
  /\ Dialect.URI mysqlDialect = Some sampleUri
  /\ CreateTableSql mysqlBase usersTable [] (str "InnoDB") (str "latin1")
     = CreateTableSql mysqlBase usersTable (Table.Name usersTable)
         (str "InnoDB") (str "latin1")
  /\ CreateTableSql mysqlBase usersTable (str "people") (str "InnoDB") []
     = CreateTableSql mysqlBase usersTable (str "people") (str "InnoDB")
         (Uri.Charset sampleUri).
Proof.
  split; [reflexivity|]. split; [reflexivity|].
  exact (CreateTableSql_defaults mysqlBase mysqlDialect sampleUri usersTable
           (str "people") (str "InnoDB") (str "latin1") eq_refl eq_refl).
Defined.

Lemma CreateTableSql_unsupported_clauses_witness :
  dialect ansiBase = Some ansiDialect
  /\ Dialect.SupportEngine ansiDialect = false
  /\ Dialect.SupportCharset ansiDialect = false
  /\ CreateTableSql ansiBase usersTable [] (str "InnoDB") (str "utf8")
     = CreateTableSql ansiBase usersTable [] [] (str "utf8")
  /\ CreateTableSql ansiBase usersTable [] (str "InnoDB") (str "utf8")
     = CreateTableSql ansiBase usersTable [] (str "InnoDB") []
  /\ Dialect.URI ansiDialectNoUri = None
  /\ Dialect.URI ansiDialect = Some sampleUri
  /\ CreateTableSql ansiBaseNoUri usersTable [] (str "InnoDB") []
     = CreateTableSql ansiBase usersTable [] (str "InnoDB") (str "utf8").
Proof.
  split; [reflexivity|]. split; [reflexivity|]. split; [reflexivity|].
  split; [|split; [|split; [reflexivity|split; [reflexivity|]]]].
  - exact (proj1 (CreateTableSql_unsupported_clauses ansiBase ansiDialect
                    usersTable [] (str "InnoDB") (str "utf8") eq_refl)
                 eq_refl).
  - exact (proj1 (proj2 (CreateTableSql_unsupported_clauses ansiBase
                    ansiDialect usersTable [] (str "InnoDB") (str "utf8")
                    eq_refl))
                 eq_refl).
  - exact (proj2 (proj2 (CreateTableSql_unsupported_clauses ansiBase
                    ansiDialect usersTable [] (str "InnoDB") (str "utf8")
                    eq_refl))
                 eq_refl ansiBaseNoUri ansiDialectNoUri [] eq_refl eq_refl
                 eq_refl eq_refl (fun col => conj eq_refl eq_refl)).
Defined.

Lemma usersTableWide_agrees n :
  n ∈ Table.ColumnsSeq usersTable ->
  Table.GetColumn usersTable n = Table.GetColumn usersTableWide n.
Proof.
  intros Hn. apply elem_of_cons in Hn as [->|Hn]; [reflexivity|].
  apply elem_of_cons in Hn as [->|Hn]; [reflexivity|].
  by apply elem_of_nil in Hn.
Qed.

Lemma CreateTableSql_reads_listed_columns_only_witness :
  Table.Name usersTable <> Table.Name usersTableWide
  /\ Table.ColumnsSeq usersTable = Table.ColumnsSeq usersTableWide
  /\ Table.PrimaryKeys usersTable = Table.PrimaryKeys usersTableWide
  /\ Table.GetColumn usersTable (str "group_id")
     <> Table.GetColumn usersTableWide (str "group_id")
  /\ CreateTableSql mysqlBase usersTable (str "users") (str "InnoDB") []
     = CreateTableSql mysqlBase usersTableWide (str "users") (str "InnoDB") [].
Proof.
  split; [discriminate|]. split; [reflexivity|]. split; [reflexivity|].
  split; [discriminate|].
  exact (CreateTableSql_reads_listed_columns_only mysqlBase usersTable
           usersTableWide (str "users") (str "InnoDB") []
           (fun E => ltac:(discriminate E)) eq_refl eq_refl
           usersTableWide_agrees).
Defined.

Lemma keylessTable_resolves : resolves keylessTable usersColumns.
Proof. repeat constructor. Qed.

Lemma CreateTableSql_without_primary_keys_witness :
  Table.PrimaryKeys keylessTable = []
  /\ map IsPrimaryKey usersColumns = [true; false]
  /\ CreateTableSql mysqlBase keylessTable [] [] (str "utf8") =
     Ok (match map (fun col : SampleColumn =>
                      Column_StringNoPk col mysqlDialect) usersColumns with
         | [] => str "CREATE TABLE IF NOT EXISTS "
                 ++ quoted mysqlDialect (effectiveName keylessTable [])
         | _ => header mysqlDialect (effectiveName keylessTable [])
         end
         ++ columnList (map (fun col : SampleColumn =>
                               Column_StringNoPk col mysqlDialect)
                            usersColumns)
         ++ str ")" ++ engineClause mysqlDialect []
         ++ charsetClause mysqlDialect sampleUri (str "utf8") ++ str ";")
  /\ CreateTableSql mysqlBase keylessTable [] [] (str "utf8") =
     Ok (str "CREATE TABLE IF NOT EXISTS `users` (`id` INT NOT NULL, `name` VARCHAR(255) NULL) DEFAULT CHARSET utf8;")
  /\ Column_String (mkColumn (str "id") (str "INT") true) mysqlDialect
     = str "`id` INT PRIMARY KEY NOT NULL ".
Proof.
  split; [reflexivity|]. split; [reflexivity|].
  split; [|split; vm_compute; reflexivity].
  exact (CreateTableSql_without_primary_keys mysqlBase mysqlDialect sampleUri
           keylessTable usersColumns [] [] (str "utf8")
           eq_refl eq_refl keylessTable_resolves eq_refl).
Defined.

Lemma CreateTableSql_begins_with_quoted_name_witness :
  dialect mysqlBase = Some mysqlDialect
  /\ Dialect.URI mysqlDialect = Some sampleUri
  /\ resolves emptyTable []
  /\ exists rest,
       CreateTableSql mysqlBase emptyTable [] [] [] =
       Ok (str "CREATE TABLE IF NOT EXISTS "
           ++ quoted mysqlDialect (Table.Name emptyTable) ++ rest).
Proof.
  split; [reflexivity|]. split; [reflexivity|].
  split; [exact emptyTable_resolves|].
  exact (CreateTableSql_begins_with_quoted_name mysqlBase mysqlDialect
           sampleUri emptyTable [] [] [] [] eq_refl eq_refl
           emptyTable_resolves).
Defined.

Lemma CreateTableSql_blank_last_definition_witness :
  trimRight (columnDef mysqlDialect (Table.PrimaryKeys gapTable) (str "  "))
  = []
  /\ CreateTableSql mysqlBase gapTable [] [] (str "utf8") =
     Ok (header mysqlDialect (effectiveName gapTable [])
         ++ columnList (map (columnDef mysqlDialect
                               (Table.PrimaryKeys gapTable))
                            [str "`a` INT "])
         ++ str ","
         ++ (if (2 <=? length (Table.PrimaryKeys gapTable))%nat
             then str ", "
                  ++ primaryKeyClause mysqlDialect (Table.PrimaryKeys gapTable)
             else [])
         ++ str ")" ++ engineClause mysqlDialect []
         ++ charsetClause mysqlDialect sampleUri (str "utf8") ++ str ";")
  /\ CreateTableSql mysqlBase gapTable [] [] (str "utf8") =
     Ok (str "CREATE TABLE IF NOT EXISTS `gap` (`a` INT,) DEFAULT CHARSET utf8;").
Proof.
  split; [reflexivity|]. split; [|vm_compute; reflexivity].
  exact (CreateTableSql_blank_last_definition mysqlBase mysqlDialect sampleUri
           gapTable (str "`a` INT ") [] (str "  ") [] [] (str "utf8")
           eq_refl eq_refl gapTable_resolves eq_refl).
Defined.
